(** * EncryptDemo: the encryption pipeline of [src/web/app.js]

    A shallow embedding of the JavaScript application: the input
    validator, the output formatter, the memory manager, the UI manager and
    the asynchronous encryption controller, followed by the properties of
    the pipeline.

    JavaScript strings are sequences of UTF-16 code units, typed arrays are
    sequences of bytes.  The platform functions the program calls
    ([String.prototype.trim], [TextEncoder.encode], [btoa]) are written out
    after their specifications; the cryptographic provider, the random
    source, the clock and the user are the environment, and appear as the
    events of a step function. *)

From Stdlib Require Import List NArith Arith Bool Lia String Ascii.
From Stdlib Require Import Strings.Byte.
From Stdlib Require DecimalString.
Import ListNotations.

Local Open Scope N_scope.

(** ** JavaScript strings *)

Module JS.

(** A string is the list of its UTF-16 code units. *)
Definition jsstring := list N.

(** An ASCII literal of the source. *)
Definition lit (s : string) : jsstring :=
  map N_of_ascii (list_ascii_of_string s).

(** [String(n)] for a non-negative integer [n], as in a template literal. *)
Definition of_number (n : N) : jsstring :=
  lit (DecimalString.NilZero.string_of_uint (N.to_uint n)).

(** [s.length] *)
Definition length (s : jsstring) : N := N.of_nat (List.length s).

Definition jsstring_eqb (s t : jsstring) : bool :=
  if list_eq_dec N.eq_dec s t then true else false.

(** The code units [String.prototype.trim] removes: WhiteSpace and
    LineTerminator of ECMA-262. *)
Definition is_whitespace (c : N) : bool :=
  (c =? 0x09) || (c =? 0x0A) || (c =? 0x0B) || (c =? 0x0C) || (c =? 0x0D)
  || (c =? 0x20) || (c =? 0xA0) || (c =? 0x1680)
  || ((0x2000 <=? c) && (c <=? 0x200A))
  || (c =? 0x2028) || (c =? 0x2029) || (c =? 0x202F) || (c =? 0x205F)
  || (c =? 0x3000) || (c =? 0xFEFF).

Fixpoint trimStart (s : jsstring) : jsstring :=
  match s with
  | [] => []
  | c :: t => if is_whitespace c then trimStart t else s
  end.

Definition trimEnd (s : jsstring) : jsstring := rev (trimStart (rev s)).

Definition trim (s : jsstring) : jsstring := trimEnd (trimStart s).

(** [re.test(s)] for a regular expression that is one character class,
    without flags: some code unit of [s] is in the class. *)
Definition test (cls : N -> bool) (s : jsstring) : bool := existsb cls s.

(** [s.replace(re, r)] for a global regular expression [re] that is one
    character class and a replacement [r] without [$]. *)
Definition replace (cls : N -> bool) (r : jsstring) (s : jsstring) : jsstring :=
  flat_map (fun c => if cls c then r else [c]) s.

(** [s.includes(p)] *)
Fixpoint startsWith (p s : jsstring) : bool :=
  match p, s with
  | [], _ => true
  | _ :: _, [] => false
  | a :: p', b :: s' => (a =? b) && startsWith p' s'
  end.

Fixpoint includes (p s : jsstring) : bool :=
  startsWith p s ||
  match s with
  | [] => false
  | _ :: s' => includes p s'
  end.

End JS.

Import JS.

(** ** InputValidator *)

Module InputValidator.

(** The character class [[\x00-\x08\x0B\x0C\x0E-\x1F\x7F]]. *)
Definition dangerousChars (c : N) : bool :=
  (c <=? 0x08) || (c =? 0x0B) || (c =? 0x0C)
  || ((0x0E <=? c) && (c <=? 0x1F)) || (c =? 0x7F).

(** The regular expression of one literal character [k]. *)
Definition is_char (k : string) (c : N) : bool := jsstring_eqb [c] (lit k).

(** The one-character string holding the double quote, U+0022. *)
Definition dquote : string := String (ascii_of_N 0x22) EmptyString.

Definition sanitize (input : jsstring) : jsstring :=
  replace (is_char "'") (lit "&#x27;")
    (replace (is_char dquote) (lit "&quot;")
      (replace (is_char ">") (lit "&gt;")
        (replace (is_char "<") (lit "&lt;")
          (replace (is_char "&") (lit "&amp;")
            (replace dangerousChars []
              (trim input)))))).

Record ValidationResult := mkValidation {
  isValid : bool;
  errors : list jsstring;
  sanitized : jsstring
}.

Definition too_long_message (input : jsstring) : jsstring :=
  lit "Input too long: " ++ of_number (length input) ++ lit "/10000 characters".

Definition validate (input : jsstring) : ValidationResult :=
  let errors := [] in
  let errors :=
    if length input =? 0 then errors ++ [lit "Input cannot be empty"] else errors in
  let errors :=
    if 10000 <? length input then errors ++ [too_long_message input] else errors in
  let errors :=
    if test dangerousChars input
    then errors ++ [lit "Input contains invalid control characters"] else errors in
  {| isValid := (List.length errors =? 0)%nat;
     errors := errors;
     sanitized := sanitize input |}.

End InputValidator.

(** ** Platform functions on bytes *)

Module Platform.

(** A [Uint8Array] or [ArrayBuffer] is the list of its bytes. *)
Definition bytes := list byte.

Definition byte_of_N (n : N) : byte :=
  match Byte.of_N (n mod 256) with
  | Some b => b
  | None => x00
  end.

(** *** [TextEncoder.prototype.encode]: UTF-16 code units to UTF-8 *)

Definition is_high_surrogate (c : N) : bool := (0xD800 <=? c) && (c <=? 0xDBFF).
Definition is_low_surrogate (c : N) : bool := (0xDC00 <=? c) && (c <=? 0xDFFF).

(** The code points of a string; a surrogate without its partner becomes
    U+FFFD. *)
Fixpoint code_points (s : jsstring) : list N :=
  match s with
  | [] => []
  | c :: t =>
      if is_high_surrogate c then
        match t with
        | d :: t' =>
            if is_low_surrogate d
            then (0x10000 + N.shiftl (c - 0xD800) 10 + (d - 0xDC00)) :: code_points t'
            else 0xFFFD :: code_points t
        | [] => [0xFFFD]
        end
      else if is_low_surrogate c then 0xFFFD :: code_points t
      else c :: code_points t
  end.

Definition continuation (n : N) : N := N.lor 0x80 (N.land n 0x3F).

Definition utf8_of_code_point (cp : N) : list N :=
  if cp <=? 0x7F then [cp]
  else if cp <=? 0x7FF then
    [N.lor 0xC0 (N.shiftr cp 6); continuation cp]
  else if cp <=? 0xFFFF then
    [N.lor 0xE0 (N.shiftr cp 12); continuation (N.shiftr cp 6); continuation cp]
  else
    [N.lor 0xF0 (N.shiftr cp 18); continuation (N.shiftr cp 12);
     continuation (N.shiftr cp 6); continuation cp].

Definition TextEncoder_encode (s : jsstring) : bytes :=
  map byte_of_N (flat_map utf8_of_code_point (code_points s)).

(** *** [String.fromCharCode(...array)]

    One code unit per byte.  The bound an engine puts on the number of
    arguments of a call is not part of the language and is left out. *)

Definition fromCharCode (a : bytes) : jsstring := map Byte.to_N a.

(** *** [TypedArray.prototype.set(source, offset)]

    [None] stands for the [RangeError] of a source that does not fit. *)
Definition set (target source : bytes) (offset : nat) : option bytes :=
  if (offset + List.length source <=? List.length target)%nat
  then Some (firstn offset target ++ source
             ++ skipn (offset + List.length source) target)
  else None.

(** *** [btoa]: base64 of a binary string (RFC 4648, section 4) *)

Definition base64_alphabet : jsstring :=
  lit "ABCDEFGHIJKLMNOPQRSTUVWXYZabcdefghijklmnopqrstuvwxyz0123456789+/".

Definition base64_pad : N := 0x3D.

Definition base64_char (sextet : N) : N :=
  nth (N.to_nat sextet) base64_alphabet base64_pad.

Fixpoint base64_encode (s : list N) : jsstring :=
  match s with
  | [] => []
  | [a] =>
      [base64_char (N.shiftr a 2);
       base64_char (N.shiftl (N.land a 3) 4);
       base64_pad; base64_pad]
  | [a; b] =>
      [base64_char (N.shiftr a 2);
       base64_char (N.lor (N.shiftl (N.land a 3) 4) (N.shiftr b 4));
       base64_char (N.shiftl (N.land b 15) 2);
       base64_pad]
  | a :: b :: c :: t =>
      base64_char (N.shiftr a 2)
      :: base64_char (N.lor (N.shiftl (N.land a 3) 4) (N.shiftr b 4))
      :: base64_char (N.lor (N.shiftl (N.land b 15) 2) (N.shiftr c 6))
      :: base64_char (N.land c 63)
      :: base64_encode t
  end.

(** [None] stands for the [InvalidCharacterError] of a code unit above
    U+00FF. *)
Definition btoa (s : jsstring) : option jsstring :=
  if forallb (fun c => c <=? 255) s then Some (base64_encode s) else None.

(** *** Base64 decoding (RFC 4648, section 4), the inverse a consumer of
    the encoded text applies.  Padding is accepted in the last group only. *)

Fixpoint index_of (c : N) (l : list N) : option N :=
  match l with
  | [] => None
  | x :: t => if c =? x then Some 0 else option_map N.succ (index_of c t)
  end.

Definition base64_sextet (c : N) : option N := index_of c base64_alphabet.

Definition decode_quad (a b c d : N) : option (list N) :=
  match base64_sextet a, base64_sextet b, base64_sextet c, base64_sextet d with
  | Some p, Some q, Some r, Some s =>
      Some [N.lor (N.shiftl p 2) (N.shiftr q 4);
            N.lor (N.shiftl (N.land q 15) 4) (N.shiftr r 2);
            N.lor (N.shiftl (N.land r 3) 6) s]
  | _, _, _, _ => None
  end.

Definition decode_last (a b c d : N) : option (list N) :=
  if d =? base64_pad then
    if c =? base64_pad then
      match base64_sextet a, base64_sextet b with
      | Some p, Some q =>
          if N.land q 15 =? 0
          then Some [N.lor (N.shiftl p 2) (N.shiftr q 4)] else None
      | _, _ => None
      end
    else
      match base64_sextet a, base64_sextet b, base64_sextet c with
      | Some p, Some q, Some r =>
          if N.land r 3 =? 0
          then Some [N.lor (N.shiftl p 2) (N.shiftr q 4);
                     N.lor (N.shiftl (N.land q 15) 4) (N.shiftr r 2)]
          else None
      | _, _, _ => None
      end
  else decode_quad a b c d.

Fixpoint base64_decode (s : jsstring) : option (list N) :=
  match s with
  | [] => Some []
  | a :: b :: c :: d :: t =>
      match t with
      | [] => decode_last a b c d
      | _ :: _ =>
          match decode_quad a b c d, base64_decode t with
          | Some x, Some y => Some (x ++ y)
          | _, _ => None
          end
      end
  | _ => None
  end.

(** The decoded bytes of an encoded text. *)
Definition decode_bytes (s : jsstring) : option bytes :=
  option_map (map byte_of_N) (base64_decode s).

End Platform.

Import Platform.

(** ** Exceptions *)

(** The outcome of a call that may throw [new Error(message)]. *)
Inductive completion (A : Type) : Type :=
| Normal (value : A)
| Throw (message : jsstring).

Arguments Normal {A} value.
Arguments Throw {A} message.

(** ** OutputFormatter *)

Module OutputFormatter.

Definition formatOutput (iv encryptedData : bytes) : completion jsstring :=
  let combined := repeat x00 (List.length iv + List.length encryptedData) in
  match set combined iv 0 with
  | None => Throw (lit "Failed to format encrypted output")
  | Some combined =>
      match set combined encryptedData (List.length iv) with
      | None => Throw (lit "Failed to format encrypted output")
      | Some combined =>
          match btoa (fromCharCode combined) with
          | None => Throw (lit "Failed to format encrypted output")
          | Some text => Normal text
          end
      end
  end.

End OutputFormatter.

(** ** Application state *)

(** An opaque, non-extractable key of the Web Crypto API. *)
Inductive CryptoKey : Type := Key (handle : N).

Record AppState := mkAppState {
  isProcessing : bool;
  currentKey : option CryptoKey;
  lastEncryptedData : option bytes
}.

(** ** The cached DOM elements of UIManager

    Of every element the properties the program reads or writes; the class
    [hidden] of an element is a boolean ([className = ...] on
    [errorMessage] assigns a class list without [hidden]). *)

Record Elements := mkElements {
  inputText_value : jsstring;
  outputText_value : jsstring;
  encryptBtn_disabled : bool;
  copyBtn_disabled : bool;
  charCount_textContent : jsstring;
  charCount_className : jsstring;
  validationStatus_textContent : jsstring;
  validationStatus_className : jsstring;
  statusArea_hidden : bool;
  errorMessage_hidden : bool;
  errorText_textContent : jsstring;
  successMessage_hidden : bool;
  successText_textContent : jsstring;
  copyStatus_textContent : jsstring;
  processingIndicator_hidden : bool
}.

Definition set_inputText_value (v : jsstring) (e : Elements) : Elements :=
  mkElements v (outputText_value e) (encryptBtn_disabled e) (copyBtn_disabled
    e) (charCount_textContent e) (charCount_className e)
    (validationStatus_textContent e) (validationStatus_className e)
    (statusArea_hidden e) (errorMessage_hidden e) (errorText_textContent e)
    (successMessage_hidden e) (successText_textContent e)
    (copyStatus_textContent e) (processingIndicator_hidden e).

Definition set_outputText_value (v : jsstring) (e : Elements) : Elements :=
  mkElements (inputText_value e) v (encryptBtn_disabled e) (copyBtn_disabled
    e) (charCount_textContent e) (charCount_className e)
    (validationStatus_textContent e) (validationStatus_className e)
    (statusArea_hidden e) (errorMessage_hidden e) (errorText_textContent e)
    (successMessage_hidden e) (successText_textContent e)
    (copyStatus_textContent e) (processingIndicator_hidden e).

Definition set_encryptBtn_disabled (v : bool) (e : Elements) : Elements :=
  mkElements (inputText_value e) (outputText_value e) v (copyBtn_disabled e)
    (charCount_textContent e) (charCount_className e)
    (validationStatus_textContent e) (validationStatus_className e)
    (statusArea_hidden e) (errorMessage_hidden e) (errorText_textContent e)
    (successMessage_hidden e) (successText_textContent e)
    (copyStatus_textContent e) (processingIndicator_hidden e).

Definition set_copyBtn_disabled (v : bool) (e : Elements) : Elements :=
  mkElements (inputText_value e) (outputText_value e) (encryptBtn_disabled e)
    v (charCount_textContent e) (charCount_className e)
    (validationStatus_textContent e) (validationStatus_className e)
    (statusArea_hidden e) (errorMessage_hidden e) (errorText_textContent e)
    (successMessage_hidden e) (successText_textContent e)
    (copyStatus_textContent e) (processingIndicator_hidden e).

Definition set_charCount_textContent (v : jsstring) (e : Elements) : Elements :=
  mkElements (inputText_value e) (outputText_value e) (encryptBtn_disabled e)
    (copyBtn_disabled e) v (charCount_className e)
    (validationStatus_textContent e) (validationStatus_className e)
    (statusArea_hidden e) (errorMessage_hidden e) (errorText_textContent e)
    (successMessage_hidden e) (successText_textContent e)
    (copyStatus_textContent e) (processingIndicator_hidden e).

Definition set_charCount_className (v : jsstring) (e : Elements) : Elements :=
  mkElements (inputText_value e) (outputText_value e) (encryptBtn_disabled e)
    (copyBtn_disabled e) (charCount_textContent e) v
    (validationStatus_textContent e) (validationStatus_className e)
    (statusArea_hidden e) (errorMessage_hidden e) (errorText_textContent e)
    (successMessage_hidden e) (successText_textContent e)
    (copyStatus_textContent e) (processingIndicator_hidden e).

Definition set_validationStatus_textContent (v : jsstring) (e : Elements) : Elements :=
  mkElements (inputText_value e) (outputText_value e) (encryptBtn_disabled e)
    (copyBtn_disabled e) (charCount_textContent e) (charCount_className e) v
    (validationStatus_className e) (statusArea_hidden e) (errorMessage_hidden
    e) (errorText_textContent e) (successMessage_hidden e)
    (successText_textContent e) (copyStatus_textContent e)
    (processingIndicator_hidden e).

Definition set_validationStatus_className (v : jsstring) (e : Elements) : Elements :=
  mkElements (inputText_value e) (outputText_value e) (encryptBtn_disabled e)
    (copyBtn_disabled e) (charCount_textContent e) (charCount_className e)
    (validationStatus_textContent e) v (statusArea_hidden e)
    (errorMessage_hidden e) (errorText_textContent e) (successMessage_hidden
    e) (successText_textContent e) (copyStatus_textContent e)
    (processingIndicator_hidden e).

Definition set_statusArea_hidden (v : bool) (e : Elements) : Elements :=
  mkElements (inputText_value e) (outputText_value e) (encryptBtn_disabled e)
    (copyBtn_disabled e) (charCount_textContent e) (charCount_className e)
    (validationStatus_textContent e) (validationStatus_className e) v
    (errorMessage_hidden e) (errorText_textContent e) (successMessage_hidden
    e) (successText_textContent e) (copyStatus_textContent e)
    (processingIndicator_hidden e).

Definition set_errorMessage_hidden (v : bool) (e : Elements) : Elements :=
  mkElements (inputText_value e) (outputText_value e) (encryptBtn_disabled e)
    (copyBtn_disabled e) (charCount_textContent e) (charCount_className e)
    (validationStatus_textContent e) (validationStatus_className e)
    (statusArea_hidden e) v (errorText_textContent e) (successMessage_hidden
    e) (successText_textContent e) (copyStatus_textContent e)
    (processingIndicator_hidden e).

Definition set_errorText_textContent (v : jsstring) (e : Elements) : Elements :=
  mkElements (inputText_value e) (outputText_value e) (encryptBtn_disabled e)
    (copyBtn_disabled e) (charCount_textContent e) (charCount_className e)
    (validationStatus_textContent e) (validationStatus_className e)
    (statusArea_hidden e) (errorMessage_hidden e) v (successMessage_hidden e)
    (successText_textContent e) (copyStatus_textContent e)
    (processingIndicator_hidden e).

Definition set_successMessage_hidden (v : bool) (e : Elements) : Elements :=
  mkElements (inputText_value e) (outputText_value e) (encryptBtn_disabled e)
    (copyBtn_disabled e) (charCount_textContent e) (charCount_className e)
    (validationStatus_textContent e) (validationStatus_className e)
    (statusArea_hidden e) (errorMessage_hidden e) (errorText_textContent e) v
    (successText_textContent e) (copyStatus_textContent e)
    (processingIndicator_hidden e).

Definition set_successText_textContent (v : jsstring) (e : Elements) : Elements :=
  mkElements (inputText_value e) (outputText_value e) (encryptBtn_disabled e)
    (copyBtn_disabled e) (charCount_textContent e) (charCount_className e)
    (validationStatus_textContent e) (validationStatus_className e)
    (statusArea_hidden e) (errorMessage_hidden e) (errorText_textContent e)
    (successMessage_hidden e) v (copyStatus_textContent e)
    (processingIndicator_hidden e).

Definition set_copyStatus_textContent (v : jsstring) (e : Elements) : Elements :=
  mkElements (inputText_value e) (outputText_value e) (encryptBtn_disabled e)
    (copyBtn_disabled e) (charCount_textContent e) (charCount_className e)
    (validationStatus_textContent e) (validationStatus_className e)
    (statusArea_hidden e) (errorMessage_hidden e) (errorText_textContent e)
    (successMessage_hidden e) (successText_textContent e) v
    (processingIndicator_hidden e).

Definition set_processingIndicator_hidden (v : bool) (e : Elements) : Elements :=
  mkElements (inputText_value e) (outputText_value e) (encryptBtn_disabled e)
    (copyBtn_disabled e) (charCount_textContent e) (charCount_className e)
    (validationStatus_textContent e) (validationStatus_className e)
    (statusArea_hidden e) (errorMessage_hidden e) (errorText_textContent e)
    (successMessage_hidden e) (successText_textContent e)
    (copyStatus_textContent e) v.

(** ** MemoryManager *)

Module MemoryManager.

Definition clearSensitiveData (a : AppState) : AppState :=
  {| isProcessing := isProcessing a;
     currentKey := None;
     lastEncryptedData := None |}.

End MemoryManager.

(** ** UIManager *)

Module UIManager.

Definition check_mark : N := 0x2713.
Definition ballot_x : N := 0x2717.

Definition updateCharacterCount (e : Elements) : Elements :=
  let length := length (inputText_value e) in
  let e := set_charCount_textContent
             (of_number length ++ lit " / 10,000 characters") e in
  if 9000 <? length then set_charCount_className (lit "text-sm text-red-500") e
  else if 7000 <? length then set_charCount_className (lit "text-sm text-yellow-600") e
  else set_charCount_className (lit "text-sm text-gray-500") e.

Definition validateInput (e : Elements) : Elements :=
  let input := inputText_value e in
  let validation := InputValidator.validate input in
  if length input =? 0 then
    set_encryptBtn_disabled true
      (set_validationStatus_className (lit "text-sm")
        (set_validationStatus_textContent [] e))
  else if InputValidator.isValid validation then
    set_encryptBtn_disabled false
      (set_validationStatus_className (lit "text-sm text-green-600")
        (set_validationStatus_textContent (check_mark :: lit " Valid input") e))
  else
    set_encryptBtn_disabled true
      (set_validationStatus_className (lit "text-sm text-red-600")
        (set_validationStatus_textContent
          (ballot_x :: lit " " ++ hd [] (InputValidator.errors validation)) e)).

Definition showError (message : jsstring) (e : Elements) : Elements :=
  set_successMessage_hidden true
    (set_errorText_textContent message
      (set_errorMessage_hidden false
        (set_statusArea_hidden false e))).

Definition showSuccess (message : jsstring) (e : Elements) : Elements :=
  set_errorMessage_hidden true
    (set_successText_textContent message
      (set_successMessage_hidden false
        (set_statusArea_hidden false e))).

Definition displayResult (encryptedText : jsstring) (e : Elements) : Elements :=
  showSuccess (lit "Text encrypted successfully!")
    (set_copyBtn_disabled false
      (set_outputText_value encryptedText e)).

Definition clearMessages (e : Elements) : Elements :=
  set_copyStatus_textContent []
    (set_successMessage_hidden true
      (set_errorMessage_hidden true
        (set_statusArea_hidden true e))).

Definition showProcessing (e : Elements) : Elements :=
  clearMessages
    (set_encryptBtn_disabled true
      (set_processingIndicator_hidden false e)).

Definition hideProcessing (e : Elements) : Elements :=
  validateInput (set_processingIndicator_hidden true e).

(** The listener of the [input] event of the text area. *)
Definition onInput (e : Elements) : Elements :=
  clearMessages (validateInput (updateCharacterCount e)).

(** [initialize], on the elements as the page declares them. *)
Definition initialize (e : Elements) : Elements :=
  validateInput (updateCharacterCount e).

End UIManager.

(** ** The running page *)

(** What a call leaves outside the page: calls of the cryptographic
    provider and of the random source, console output, timers, and the
    marker of a run of [MemoryManager.clearSensitiveData]. *)
Inductive Effect : Type :=
| SubtleGenerateKey
| GetRandomValues (n : nat)
| SubtleEncrypt (key : CryptoKey) (iv data : bytes)
| ConsoleError (message : jsstring)
| ConsoleWarn
| SetTimeout (delay : N)
| ClearedSensitiveData.

(** A call of [processEncryption] suspended at one of its two [await]s,
    with its local variables. *)
Inductive Run : Type :=
| AwaitGenerateKey (startTime : N) (validation : InputValidator.ValidationResult)
| AwaitEncrypt (startTime : N) (validation : InputValidator.ValidationResult)
    (key : CryptoKey) (iv : bytes).

Record World := mkWorld {
  app : AppState;
  elements : Elements;
  runs : list Run;          (* suspended calls of processEncryption *)
  timers : list N;          (* due times of the pending clearSensitiveData timers *)
  now : N                   (* performance.now(), in milliseconds *)
}.

Definition set_app (a : AppState) (w : World) : World :=
  mkWorld a (elements w) (runs w) (timers w) (now w).

Definition set_elements (e : Elements) (w : World) : World :=
  mkWorld (app w) e (runs w) (timers w) (now w).

Definition set_runs (r : list Run) (w : World) : World :=
  mkWorld (app w) (elements w) r (timers w) (now w).

Definition set_timers (t : list N) (w : World) : World :=
  mkWorld (app w) (elements w) (runs w) t (now w).

Definition set_now (t : N) (w : World) : World :=
  mkWorld (app w) (elements w) (runs w) (timers w) t.

Definition set_isProcessing (b : bool) (w : World) : World :=
  set_app (mkAppState b (currentKey (app w)) (lastEncryptedData (app w))) w.

Definition set_currentKey (k : option CryptoKey) (w : World) : World :=
  set_app (mkAppState (isProcessing (app w)) k (lastEncryptedData (app w))) w.

Definition set_lastEncryptedData (d : option bytes) (w : World) : World :=
  set_app (mkAppState (isProcessing (app w)) (currentKey (app w)) d) w.

Definition ui (f : Elements -> Elements) (w : World) : World :=
  set_elements (f (elements w)) w.

(** [UIManager.clearAll], the listener of the clear button. *)
Definition clearAll (w : World) : World * list Effect :=
  let w := ui (set_inputText_value []) w in
  let w := ui (set_outputText_value []) w in
  let w := ui (set_copyBtn_disabled true) w in
  let w := ui UIManager.updateCharacterCount w in
  let w := ui UIManager.validateInput w in
  let w := ui UIManager.clearMessages w in
  let w := set_app (MemoryManager.clearSensitiveData (app w)) w in
  let w := ui (UIManager.showSuccess (lit "All data cleared")) w in
  (w, [ClearedSensitiveData]).

(** ** CryptographicEngine *)

Module CryptographicEngine.

(** [generateKey] after its [await]: the provider's promise was fulfilled
    with a key ([Some]) or rejected ([None]). *)
Definition generateKey_resume (settled : option CryptoKey) : completion CryptoKey :=
  match settled with
  | Some key => Normal key
  | None => Throw (lit "Failed to generate cryptographic key")
  end.

(** [generateIV]: twelve bytes of the random source. *)
Definition generateIV (random : nat -> byte) : bytes * list Effect :=
  (map random (seq 0 12), [GetRandomValues 12]).

(** [encryptText] up to its [await]: the call of the provider. *)
Definition encryptText_call (plaintext : jsstring) (key : CryptoKey) (iv : bytes)
  : list Effect :=
  let data := TextEncoder_encode plaintext in
  [SubtleEncrypt key iv data].

(** [encryptText] after its [await]. *)
Definition encryptText_resume (settled : option bytes) : completion bytes :=
  match settled with
  | Some encryptedData => Normal encryptedData
  | None => Throw (lit "Encryption operation failed")
  end.

End CryptographicEngine.

(** ** EncryptionController *)

Module EncryptionController.

Definition generic_message : jsstring := lit "Encryption failed. Please try again.".

(** The [catch] block of [processEncryption]. *)
Definition catch_block (message : jsstring) (w : World) : World * list Effect :=
  (ui (UIManager.showError generic_message) w, [ConsoleError message]).

(** The [finally] block of [processEncryption]. *)
Definition finally_block (w : World) : World * list Effect :=
  let w := set_isProcessing false w in
  let w := ui UIManager.hideProcessing w in
  (set_timers (timers w ++ [now w + 100]) w, [SetTimeout 100]).

(** A stretch of the [try] block ends at an [await] (the call is
    suspended), at the end of the block, or by an exception. *)
Inductive Stretch : Type :=
| Suspended (r : Run)
| Completed
| Thrown (message : jsstring).

(** The [try]/[catch]/[finally] statement around a stretch. *)
Definition try_statement (body : Stretch * World * list Effect)
  : World * list Effect :=
  match body with
  | (Suspended r, w, fx) => (set_runs (runs w ++ [r]) w, fx)
  | (Completed, w, fx) =>
      let '(w, fx') := finally_block w in (w, fx ++ fx')
  | (Thrown message, w, fx) =>
      let '(w, fx') := catch_block message w in
      let '(w, fx'') := finally_block w in
      (w, fx ++ fx' ++ fx'')
  end.

(** From the start of the [try] block to [await generateKey()]. *)
Definition try_from_start (w : World) : Stretch * World * list Effect :=
  let w := set_isProcessing true w in
  let w := ui UIManager.showProcessing w in
  let startTime := now w in
  let input := inputText_value (elements w) in
  let validation := InputValidator.validate input in
  if negb (InputValidator.isValid validation) then
    (Thrown (hd [] (InputValidator.errors validation)), w, [])
  else
    (Suspended (AwaitGenerateKey startTime validation), w, [SubtleGenerateKey]).

(** From the settled [generateKey()] to [await encryptText(...)]. *)
Definition try_from_key (startTime : N) (validation : InputValidator.ValidationResult)
    (settled : option CryptoKey) (random : nat -> byte) (w : World)
  : Stretch * World * list Effect :=
  match CryptographicEngine.generateKey_resume settled with
  | Throw message => (Thrown message, w, [])
  | Normal key =>
      let w := set_currentKey (Some key) w in
      let '(iv, fx) := CryptographicEngine.generateIV random in
      let fx' := CryptographicEngine.encryptText_call
                   (InputValidator.sanitized validation) key iv in
      (Suspended (AwaitEncrypt startTime validation key iv), w, fx ++ fx')
  end.

(** From the settled [encryptText(...)] to the end of the [try] block. *)
Definition try_from_encrypted (startTime : N) (iv : bytes)
    (settled : option bytes) (w : World) : Stretch * World * list Effect :=
  match CryptographicEngine.encryptText_resume settled with
  | Throw message => (Thrown message, w, [])
  | Normal encryptedData =>
      let w := set_lastEncryptedData (Some encryptedData) w in
      match OutputFormatter.formatOutput iv encryptedData with
      | Throw message => (Thrown message, w, [])
      | Normal formattedOutput =>
          let w := ui (UIManager.displayResult formattedOutput) w in
          let endTime := now w in
          let processingTime := endTime - startTime in
          if 2000 <? processingTime then (Completed, w, [ConsoleWarn])
          else (Completed, w, [])
      end
  end.

(** A call of [processEncryption], up to its return or first [await]. *)
Definition processEncryption (w : World) : World * list Effect :=
  if isProcessing (app w) then (w, [])
  else try_statement (try_from_start w).

End EncryptionController.

(** ** Events *)

(** What happens to the page: the user edits the text, something calls
    [processEncryption] (the button, Ctrl+Enter, or a script), a promise of
    the provider settles for the suspended call number [i], the oldest
    timer fires, the clear button is clicked, time passes. *)
Inductive Event : Type :=
| UserInput (text : jsstring)
| CallProcessEncryption
| KeySettled (i : nat) (settled : option CryptoKey) (random : nat -> byte)
| EncryptSettled (i : nat) (settled : option bytes)
| TimerFires
| ClickClear
| Tick (ms : N).

Definition remove_at {A} (i : nat) (l : list A) : list A :=
  firstn i l ++ skipn (S i) l.

(** One event, run to completion.  [None]: the event cannot happen in
    this state. *)
Definition step (w : World) (ev : Event) : option (World * list Effect) :=
  match ev with
  | UserInput text =>
      Some (ui UIManager.onInput (ui (set_inputText_value text) w), [])
  | CallProcessEncryption =>
      Some (EncryptionController.processEncryption w)
  | KeySettled i settled random =>
      match nth_error (runs w) i with
      | Some (AwaitGenerateKey startTime validation) =>
          Some (EncryptionController.try_statement
                  (EncryptionController.try_from_key startTime validation
                     settled random (set_runs (remove_at i (runs w)) w)))
      | _ => None
      end
  | EncryptSettled i settled =>
      match nth_error (runs w) i with
      | Some (AwaitEncrypt startTime validation key iv) =>
          Some (EncryptionController.try_statement
                  (EncryptionController.try_from_encrypted startTime iv
                     settled (set_runs (remove_at i (runs w)) w)))
      | _ => None
      end
  | TimerFires =>
      match timers w with
      | due :: rest =>
          if due <=? now w
          then Some (set_app (MemoryManager.clearSensitiveData (app w))
                       (set_timers rest w), [ClearedSensitiveData])
          else None
      | [] => None
      end
  | ClickClear => Some (clearAll w)
  | Tick ms => Some (set_now (now w + ms) w, [])
  end.

(** A sequence of events, with the effects in order. *)
Fixpoint steps (w : World) (evs : list Event) : option (World * list Effect) :=
  match evs with
  | [] => Some (w, [])
  | ev :: evs' =>
      match step w ev with
      | Some (w', fx) =>
          match steps w' evs' with
          | Some (w'', fx') => Some (w'', fx ++ fx')
          | None => None
          end
      | None => None
      end
  end.

(** The page after [DOMContentLoaded], on the elements [e] as declared. *)
Definition initial (e : Elements) : World :=
  {| app := mkAppState false None None;
     elements := UIManager.initialize e;
     runs := [];
     timers := [];
     now := 0 |}.

(** ** Definitions used by the statements and proofs *)

(** [P] holds of every number below [n]. *)
Fixpoint all_below (n : nat) (P : N -> bool) : bool :=
  match n with
  | O => true
  | S k => P (N.of_nat k) && all_below k P
  end.

Definition all_bytes (P : N -> bool) : bool := all_below 256 P.

(** The bytes of a binary string. *)
Definition binary (s : list N) : Prop := Forall (fun c => c < 256) s.

(** The control characters of the specification: 0x00-0x08, 0x0B, 0x0C,
    0x0E-0x1F and 0x7F. *)
Definition control_character (c : N) : Prop :=
  c <= 0x08 \/ c = 0x0B \/ c = 0x0C \/ (0x0E <= c /\ c <= 0x1F) \/ c = 0x7F.

(** *** Normalization as the specification words it

    Trim leading and trailing whitespace, strip the control characters,
    then escape the five characters, one after the other. *)

Fixpoint drop_leading_whitespace (s : jsstring) : jsstring :=
  match s with
  | [] => []
  | c :: t => if is_whitespace c then drop_leading_whitespace t else c :: t
  end.

Fixpoint drop_trailing_whitespace (s : jsstring) : jsstring :=
  match s with
  | [] => []
  | c :: t =>
      match drop_trailing_whitespace t with
      | [] => if is_whitespace c then [] else [c]
      | t' => c :: t'
      end
  end.

Fixpoint strip_control (s : jsstring) : jsstring :=
  match s with
  | [] => []
  | c :: t =>
      if (c <=? 0x08) || (c =? 0x0B) || (c =? 0x0C)
         || ((0x0E <=? c) && (c <=? 0x1F)) || (c =? 0x7F)
      then strip_control t else c :: strip_control t
  end.

Fixpoint escape (c : N) (entity : jsstring) (s : jsstring) : jsstring :=
  match s with
  | [] => []
  | x :: t => if x =? c then entity ++ escape c entity t else x :: escape c entity t
  end.

Definition normalize_spec (text : jsstring) : jsstring :=
  let s := drop_trailing_whitespace (drop_leading_whitespace text) in
  let s := strip_control s in
  let s := escape 0x26 (lit "&amp;") s in
  let s := escape 0x3C (lit "&lt;") s in
  let s := escape 0x3E (lit "&gt;") s in
  let s := escape 0x22 (lit "&quot;") s in
  escape 0x27 (lit "&#x27;") s.

(** The five replacements of [sanitize] in one pass: what becomes of one
    character. *)
Definition escape_char (c : N) : jsstring :=
  if c =? 0x26 then lit "&amp;"
  else if c =? 0x3C then lit "&lt;"
  else if c =? 0x3E then lit "&gt;"
  else if c =? 0x22 then lit "&quot;"
  else if c =? 0x27 then lit "&#x27;"
  else [c].

(** *** The layout a consumer reads in the decoded bytes *)

Definition nonce_of (decoded : bytes) : bytes := firstn 12 decoded.

Definition ciphertext_of (decoded : bytes) : bytes :=
  firstn (List.length decoded - 28) (skipn 12 decoded).

Definition tag_of (decoded : bytes) : bytes :=
  skipn (List.length decoded - 16) decoded.

(** *** Worlds *)

(** A page as it could be declared: everything empty, the messages and the
    indicator hidden, [text] in the text area. *)
Definition page (text : jsstring) : Elements :=
  {| inputText_value := text;
     outputText_value := [];
     encryptBtn_disabled := false;
     copyBtn_disabled := true;
     charCount_textContent := [];
     charCount_className := [];
     validationStatus_textContent := [];
     validationStatus_className := [];
     statusArea_hidden := true;
     errorMessage_hidden := true;
     errorText_textContent := [];
     successMessage_hidden := true;
     successText_textContent := [];
     copyStatus_textContent := [];
     processingIndicator_hidden := true |}.

(** No call of [processEncryption] is under way. *)
Definition idle (w : World) : Prop :=
  isProcessing (app w) = false /\ runs w = [].

(** The suspended calls hold what [processEncryption] gave them: a valid
    validation result, and a 12-byte IV with which the provider was called
    on the encoded sanitized text. *)
Definition run_ok (trace : list Effect) (r : Run) : Prop :=
  match r with
  | AwaitGenerateKey _ validation =>
      InputValidator.isValid validation = true
  | AwaitEncrypt _ validation key iv =>
      InputValidator.isValid validation = true
      /\ List.length iv = 12%nat
      /\ In (SubtleEncrypt key iv
               (TextEncoder_encode (InputValidator.sanitized validation))) trace
  end.

(** The invariant of the page: the flag is set exactly while a call is
    suspended, and at most one call is. *)
Definition invariant (w : World) (trace : list Effect) : Prop :=
  (List.length (runs w) <= 1)%nat
  /\ (isProcessing (app w) = true <-> runs w <> [])
  /\ Forall (run_ok trace) (runs w).

(** The step [ev] from [w] to [w'] ends a call of [processEncryption]
    that had passed the guard: the call returns, or its promise settles. *)
Definition ends_run (w : World) (ev : Event) (w' : World) : bool :=
  match ev with
  | CallProcessEncryption =>
      negb (isProcessing (app w))
      && (List.length (runs w') =? List.length (runs w))%nat
  | KeySettled _ _ _ | EncryptSettled _ _ =>
      (List.length (runs w') <? List.length (runs w))%nat
  | _ => false
  end.

(** ** Definitions for the further properties *)

(** The state a sequence of events leaves the loaded page in, and what
    it produced (the loaded page itself when the sequence cannot happen). *)
Definition after (e : Elements) (evs : list Event) : World :=
  match steps (initial e) evs with
  | Some (w, _) => w
  | None => initial e
  end.

(** The elements after [UIManager.clearAll]. *)
Definition cleared (e : Elements) : Elements :=
  UIManager.showSuccess (lit "All data cleared")
    (UIManager.clearMessages
      (UIManager.validateInput
        (UIManager.updateCharacterCount
          (set_copyBtn_disabled true
            (set_outputText_value [] (set_inputText_value [] e)))))).

Definition produced (e : Elements) (evs : list Event) : list Effect :=
  match steps (initial e) evs with
  | Some (_, trace) => trace
  | None => []
  end.

(** The UTF-8 bytes one code unit can account for. *)
Definition utf8_weight (c : N) : nat :=
  if c <=? 0x7F then 1 else if c <=? 0x7FF then 2
  else if c <=? 0xFFFF then 3 else 4.

(** ** ClipboardManager *)

Module ClipboardManager.

(** The two callbacks [copyToClipboard] hands to [setTimeout]. *)
Inductive Callback : Type :=
| ClearCopyStatus      (* copyStatus.textContent = '' *)
| WarnCopyStatus.      (* the clipboard security warning *)

(** The page as [copyToClipboard] sees it: the elements, the class of
    the copy status, the system clipboard as far as this page wrote it,
    the calls suspended at [await writeText(text)] with their text, the
    pending timers in the order they were registered, and the clock. *)
Record Clip := mkClip {
  page_elements : Elements;
  copyStatus_className : jsstring;
  clipboard : option jsstring;
  writes : list jsstring;
  copy_timers : list (N * Callback);
  clock : N
}.

Definition warning_sign : jsstring := [0x26A0; 0xFE0F].

(** [copyToClipboard], up to its return or its [await]. *)
Definition copyToClipboard (c : Clip) : Clip :=
  let text := outputText_value (page_elements c) in
  match text with
  | [] =>
      mkClip (UIManager.showError (lit "No encrypted text to copy") (page_elements c))
        (copyStatus_className c) (clipboard c) (writes c) (copy_timers c) (clock c)
  | _ :: _ =>
      mkClip (page_elements c) (copyStatus_className c) (clipboard c)
        (writes c ++ [text]) (copy_timers c) (clock c)
  end.

(** [copyToClipboard] after its [await]: [writeText] was fulfilled, the
    text being on the clipboard, or rejected. *)
Definition copyToClipboard_resume (text : jsstring) (fulfilled : bool) (c : Clip)
  : Clip :=
  if fulfilled then
    mkClip
      (set_copyStatus_textContent
         (UIManager.check_mark :: lit " Copied to clipboard") (page_elements c))
      (lit "text-sm text-green-600")
      (Some text)
      (writes c)
      (copy_timers c ++ [(clock c + 3000, ClearCopyStatus);
                         (clock c + 3000, WarnCopyStatus)])
      (clock c)
  else
    mkClip
      (set_copyStatus_textContent
         (UIManager.ballot_x :: lit " Copy failed") (page_elements c))
      (lit "text-sm text-red-600")
      (clipboard c) (writes c) (copy_timers c) (clock c).

Definition run_callback (f : Callback) (c : Clip) : Clip :=
  match f with
  | ClearCopyStatus =>
      mkClip (set_copyStatus_textContent [] (page_elements c))
        (copyStatus_className c) (clipboard c) (writes c) (copy_timers c) (clock c)
  | WarnCopyStatus =>
      mkClip
        (set_copyStatus_textContent
           (warning_sign ++ lit " Clipboard security risk") (page_elements c))
        (lit "text-sm text-yellow-600")
        (clipboard c) (writes c) (copy_timers c) (clock c)
  end.

(** What happens around the copy button: it is clicked, [writeText]
    settles for the suspended call number [i], the oldest timer fires once
    it is due, time passes. *)
Inductive ClipEvent : Type :=
| ClickCopy
| WriteSettled (i : nat) (fulfilled : bool)
| CopyTimerFires
| Wait (ms : N).

Definition clip_step (c : Clip) (ev : ClipEvent) : option Clip :=
  match ev with
  | ClickCopy => Some (copyToClipboard c)
  | WriteSettled i fulfilled =>
      match nth_error (writes c) i with
      | Some text =>
          Some (copyToClipboard_resume text fulfilled
                  (mkClip (page_elements c) (copyStatus_className c) (clipboard c)
                     (remove_at i (writes c)) (copy_timers c) (clock c)))
      | None => None
      end
  | CopyTimerFires =>
      match copy_timers c with
      | (due, f) :: rest =>
          if due <=? clock c
          then Some (run_callback f
                       (mkClip (page_elements c) (copyStatus_className c)
                          (clipboard c) (writes c) rest (clock c)))
          else None
      | [] => None
      end
  | Wait ms =>
      Some (mkClip (page_elements c) (copyStatus_className c) (clipboard c)
              (writes c) (copy_timers c) (clock c + ms))
  end.


(** A page with nothing copied yet. *)
Definition fresh (e : Elements) : Clip :=
  mkClip e [] None [] [] 0.

End ClipboardManager.

(** * Properties *)

Example sanitize_script :
  InputValidator.sanitize (lit "<script>alert(1)</script>")
  = lit "&lt;script&gt;alert(1)&lt;/script&gt;".
Proof. vm_compute. reflexivity. Qed.

Example too_long_10001 :
  InputValidator.errors (InputValidator.validate (repeat 97 (N.to_nat 10001)))
  = [lit "Input too long: 10001/10000 characters"].
Proof. vm_compute. reflexivity. Qed.

Example btoa_hello :
  btoa (lit "Hello, World!") = Some (lit "SGVsbG8sIFdvcmxkIQ==").
Proof. vm_compute. reflexivity. Qed.

Example decode_hello :
  base64_decode (lit "SGVsbG8sIFdvcmxkIQ==") = Some (lit "Hello, World!").
Proof. vm_compute. reflexivity. Qed.

Example of_number_zero : of_number 0 = lit "0".
Proof. reflexivity. Qed.

Example utf8_e_acute : TextEncoder_encode [0xE9] = [xc3; xa9].
Proof. reflexivity. Qed.

Example utf8_euro :
  TextEncoder_encode [0x20AC; 0xD83D; 0xDE00; 0xDC00]
  = map byte_of_N [0xE2; 0x82; 0xAC; 0xF0; 0x9F; 0x98; 0x80; 0xEF; 0xBF; 0xBD].
Proof. vm_compute. reflexivity. Qed.

(** ** Base64 *)

Section Base64.

Lemma all_below_spec (n : nat) (P : N -> bool) :
  all_below n P = true -> forall x, x < N.of_nat n -> P x = true.
Proof.
  induction n as [|k IH]; intros H x Hx.
  - lia.
  - cbn [all_below] in H. apply andb_true_iff in H as [Hk Hr].
    destruct (N.eq_dec x (N.of_nat k)) as [->|Hne]; [exact Hk|].
    apply IH; [exact Hr|lia].
Qed.

Lemma all_bytes_spec (P : N -> bool) :
  all_bytes P = true -> forall x, x < 256 -> P x = true.
Proof. intros H x Hx. apply (all_below_spec 256 P H). exact Hx. Qed.

Lemma all_bytes2_spec (P : N -> N -> bool) :
  all_bytes (fun a => all_bytes (P a)) = true ->
  forall a b, a < 256 -> b < 256 -> P a b = true.
Proof.
  intros H a b Ha Hb.
  apply (all_bytes_spec (P a)); [|exact Hb].
  apply (all_bytes_spec (fun a => all_bytes (P a)) H a Ha).
Qed.

Lemma sextet_char (n : N) : n < 64 -> base64_sextet (base64_char n) = Some n.
Proof.
  intros Hn.
  pose (P := fun n => match base64_sextet (base64_char n) with
                      | Some m => m =? n | None => false end).
  assert (HP : P n = true).
  { apply (all_below_spec 64 P); [vm_compute; reflexivity|exact Hn]. }
  unfold P in HP. destruct (base64_sextet (base64_char n)); [|discriminate].
  apply N.eqb_eq in HP. now subst.
Qed.

Lemma char_not_pad (n : N) : n < 64 -> (base64_char n =? base64_pad) = false.
Proof.
  intros Hn.
  apply (all_below_spec 64 (fun n => negb (base64_char n =? base64_pad)))
    in Hn; [|vm_compute; reflexivity].
  now apply negb_true_iff in Hn.
Qed.

(** The sextets of a group are below 64. *)
Lemma sextets_bounded (a b : N) :
  a < 256 -> b < 256 ->
  N.shiftr a 2 < 64 /\ N.lor (N.shiftl (N.land a 3) 4) (N.shiftr b 4) < 64
  /\ N.lor (N.shiftl (N.land a 15) 2) (N.shiftr b 6) < 64 /\ N.land a 63 < 64
  /\ N.shiftl (N.land a 3) 4 < 64 /\ N.shiftl (N.land a 15) 2 < 64.
Proof.
  intros Ha Hb.
  pose (P := fun a b =>
    (N.shiftr a 2 <? 64) && (N.lor (N.shiftl (N.land a 3) 4) (N.shiftr b 4) <? 64)
    && (N.lor (N.shiftl (N.land a 15) 2) (N.shiftr b 6) <? 64) && (N.land a 63 <? 64)
    && (N.shiftl (N.land a 3) 4 <? 64) && (N.shiftl (N.land a 15) 2 <? 64)).
  assert (HP : P a b = true).
  { apply all_bytes2_spec; [vm_compute; reflexivity|exact Ha|exact Hb]. }
  unfold P in HP. repeat (apply andb_true_iff in HP as [HP ?]).
  repeat split; now apply N.ltb_lt.
Qed.

(** Regrouping the sextets gives the bytes back. *)
Lemma regroup_first (a b : N) :
  a < 256 -> b < 256 ->
  N.lor (N.shiftl (N.shiftr a 2) 2)
        (N.shiftr (N.lor (N.shiftl (N.land a 3) 4) (N.shiftr b 4)) 4) = a.
Proof.
  intros Ha Hb. apply N.eqb_eq.
  apply (all_bytes2_spec (fun a b =>
    N.lor (N.shiftl (N.shiftr a 2) 2)
      (N.shiftr (N.lor (N.shiftl (N.land a 3) 4) (N.shiftr b 4)) 4) =? a));
    [vm_compute; reflexivity|exact Ha|exact Hb].
Qed.

Lemma regroup_second_high (a b : N) :
  a < 256 -> b < 256 ->
  N.land (N.lor (N.shiftl (N.land a 3) 4) (N.shiftr b 4)) 15 = N.shiftr b 4.
Proof.
  intros Ha Hb. apply N.eqb_eq.
  apply (all_bytes2_spec (fun a b =>
    N.land (N.lor (N.shiftl (N.land a 3) 4) (N.shiftr b 4)) 15 =? N.shiftr b 4));
    [vm_compute; reflexivity|exact Ha|exact Hb].
Qed.

Lemma regroup_second (b c : N) :
  b < 256 -> c < 256 ->
  N.lor (N.shiftl (N.shiftr b 4) 4)
        (N.shiftr (N.lor (N.shiftl (N.land b 15) 2) (N.shiftr c 6)) 2) = b.
Proof.
  intros Hb Hc. apply N.eqb_eq.
  apply (all_bytes2_spec (fun b c =>
    N.lor (N.shiftl (N.shiftr b 4) 4)
      (N.shiftr (N.lor (N.shiftl (N.land b 15) 2) (N.shiftr c 6)) 2) =? b));
    [vm_compute; reflexivity|exact Hb|exact Hc].
Qed.

Lemma regroup_third (b c : N) :
  b < 256 -> c < 256 ->
  N.lor (N.shiftl (N.land (N.lor (N.shiftl (N.land b 15) 2) (N.shiftr c 6)) 3) 6)
        (N.land c 63) = c.
Proof.
  intros Hb Hc. apply N.eqb_eq.
  apply (all_bytes2_spec (fun b c =>
    N.lor (N.shiftl (N.land (N.lor (N.shiftl (N.land b 15) 2) (N.shiftr c 6)) 3) 6)
      (N.land c 63) =? c));
    [vm_compute; reflexivity|exact Hb|exact Hc].
Qed.

Lemma decode_quad_encode (a b c : N) :
  a < 256 -> b < 256 -> c < 256 ->
  decode_quad (base64_char (N.shiftr a 2))
    (base64_char (N.lor (N.shiftl (N.land a 3) 4) (N.shiftr b 4)))
    (base64_char (N.lor (N.shiftl (N.land b 15) 2) (N.shiftr c 6)))
    (base64_char (N.land c 63)) = Some [a; b; c].
Proof.
  intros Ha Hb Hc. unfold decode_quad.
  destruct (sextets_bounded a b Ha Hb) as (H1 & H2 & _).
  destruct (sextets_bounded b c Hb Hc) as (_ & _ & H3 & _).
  destruct (sextets_bounded c c Hc Hc) as (_ & _ & _ & H4 & _).
  rewrite !sextet_char by assumption.
  rewrite regroup_first, regroup_second_high, regroup_second, regroup_third
    by assumption.
  reflexivity.
Qed.

Lemma decode_last_encode (a b c : N) :
  a < 256 -> b < 256 -> c < 256 ->
  decode_last (base64_char (N.shiftr a 2))
    (base64_char (N.lor (N.shiftl (N.land a 3) 4) (N.shiftr b 4)))
    (base64_char (N.lor (N.shiftl (N.land b 15) 2) (N.shiftr c 6)))
    (base64_char (N.land c 63)) = Some [a; b; c].
Proof.
  intros Ha Hb Hc. unfold decode_last.
  destruct (sextets_bounded c c Hc Hc) as (_ & _ & _ & H4 & _).
  rewrite (char_not_pad _ H4). now apply decode_quad_encode.
Qed.

Lemma decode_last_two (a b : N) :
  a < 256 -> b < 256 ->
  decode_last (base64_char (N.shiftr a 2))
    (base64_char (N.lor (N.shiftl (N.land a 3) 4) (N.shiftr b 4)))
    (base64_char (N.shiftl (N.land b 15) 2)) base64_pad = Some [a; b].
Proof.
  intros Ha Hb. unfold decode_last.
  destruct (sextets_bounded a b Ha Hb) as (H1 & H2 & _).
  destruct (sextets_bounded b b Hb Hb) as (_ & _ & _ & _ & _ & H3).
  rewrite N.eqb_refl, (char_not_pad _ H3), !sextet_char by assumption.
  rewrite regroup_first, regroup_second_high by assumption.
  pose (P := fun b : N =>
    (N.land (N.shiftl (N.land b 15) 2) 3 =? 0)
    && (N.lor (N.shiftl (N.shiftr b 4) 4) (N.shiftr (N.shiftl (N.land b 15) 2) 2) =? b)).
  assert (HP : P b = true)
    by (apply all_bytes_spec; [vm_compute; reflexivity|exact Hb]).
  apply andb_true_iff in HP as [Hz Hv]. rewrite Hz.
  apply N.eqb_eq in Hv. now rewrite Hv.
Qed.

Lemma decode_last_one (a : N) :
  a < 256 ->
  decode_last (base64_char (N.shiftr a 2))
    (base64_char (N.shiftl (N.land a 3) 4)) base64_pad base64_pad = Some [a].
Proof.
  intros Ha. unfold decode_last.
  destruct (sextets_bounded a a Ha Ha) as (H1 & _ & _ & _ & H2 & _).
  rewrite N.eqb_refl, !sextet_char by assumption.
  pose (P := fun a : N =>
    (N.land (N.shiftl (N.land a 3) 4) 15 =? 0)
    && (N.lor (N.shiftl (N.shiftr a 2) 2) (N.shiftr (N.shiftl (N.land a 3) 4) 4) =? a)).
  assert (HP : P a = true)
    by (apply all_bytes_spec; [vm_compute; reflexivity|exact Ha]).
  apply andb_true_iff in HP as [Hz Hv]. rewrite Hz.
  apply N.eqb_eq in Hv. now rewrite Hv.
Qed.

(** Induction over a list three elements at a time, as the encoder reads
    it. *)
Lemma list_ind3 {A} (P : list A -> Prop) :
  P [] -> (forall a, P [a]) -> (forall a b, P [a; b]) ->
  (forall a b c t, P t -> P (a :: b :: c :: t)) ->
  forall l, P l.
Proof.
  intros H0 H1 H2 H3.
  assert (H : forall l, P l /\ (forall a, P (a :: l)) /\ (forall a b, P (a :: b :: l))).
  { induction l as [|x l (Hl & Hl1 & Hl2)]; repeat split; auto. }
  intros l. apply H.
Qed.

Lemma base64_encode_cons (x : N) (t : list N) :
  exists h r, base64_encode (x :: t) = h :: r.
Proof. destruct t as [|y [|z t]]; cbn [base64_encode]; eauto. Qed.

(** Decoding inverts encoding on every binary string. *)
Lemma base64_roundtrip (s : list N) :
  binary s -> base64_decode (base64_encode s) = Some s.
Proof.
  induction s as [|a|a b|a b c t IH] using list_ind3; intros Hs.
  - reflexivity.
  - inversion_clear Hs. cbn [base64_encode base64_decode].
    now apply decode_last_one.
  - inversion_clear Hs as [|? ? Ha Hs']. inversion_clear Hs'.
    cbn [base64_encode base64_decode]. now apply decode_last_two.
  - inversion_clear Hs as [|? ? Ha Hs1]. inversion_clear Hs1 as [|? ? Hb Hs2].
    inversion_clear Hs2 as [|? ? Hc Ht].
    cbn [base64_encode base64_decode].
    destruct t as [|x t'].
    + cbn [base64_encode]. now apply decode_last_encode.
    + destruct (base64_encode_cons x t') as (h & r & E).
      rewrite E, <- E, (decode_quad_encode a b c Ha Hb Hc), (IH Ht).
      reflexivity.
Qed.

Lemma fromCharCode_binary (a : bytes) : binary (fromCharCode a).
Proof.
  unfold binary, fromCharCode. apply Forall_forall. intros c Hc.
  apply in_map_iff in Hc as (b & <- & _).
  pose proof (Byte.to_N_bounded b). lia.
Qed.

Lemma btoa_fromCharCode (a : bytes) :
  btoa (fromCharCode a) = Some (base64_encode (fromCharCode a)).
Proof.
  unfold btoa.
  replace (forallb (fun c => c <=? 255) (fromCharCode a)) with true; [reflexivity|].
  symmetry. apply forallb_forall. intros c Hc.
  pose proof (proj1 (Forall_forall _ _) (fromCharCode_binary a) c Hc) as H.
  cbv beta in H. apply N.leb_le. lia.
Qed.

Lemma byte_of_to_N (b : byte) : byte_of_N (Byte.to_N b) = b.
Proof.
  unfold byte_of_N. pose proof (Byte.to_N_bounded b).
  rewrite N.mod_small by lia. now rewrite Byte.of_to_N.
Qed.

Lemma bytes_of_fromCharCode (a : bytes) : map byte_of_N (fromCharCode a) = a.
Proof.
  unfold fromCharCode. rewrite map_map.
  rewrite (map_ext _ (fun b => b) byte_of_to_N). apply map_id.
Qed.

Lemma decode_bytes_encode (a : bytes) :
  decode_bytes (base64_encode (fromCharCode a)) = Some a.
Proof.
  unfold decode_bytes.
  rewrite (base64_roundtrip _ (fromCharCode_binary a)). cbn [option_map].
  now rewrite bytes_of_fromCharCode.
Qed.

End Base64.

(** ** OutputFormatter *)

Lemma skipn_repeat {A} (x : A) (n m : nat) :
  skipn n (repeat x (n + m)) = repeat x m.
Proof. induction n as [|n IH]; [reflexivity|exact IH]. Qed.

(** The two [set] calls fill the fresh array with the IV followed by the
    encrypted data. *)
Lemma combined_layout (iv encryptedData : bytes) :
  let combined := repeat x00 (List.length iv + List.length encryptedData) in
  match Platform.set combined iv 0 with
  | Some combined' => Platform.set combined' encryptedData (List.length iv)
  | None => None
  end = Some (iv ++ encryptedData).
Proof.
  cbv zeta. unfold Platform.set. rewrite repeat_length.
  replace (0 + List.length iv <=? List.length iv + List.length encryptedData)%nat
    with true by (symmetry; apply Nat.leb_le; lia).
  cbn [firstn app Nat.add]. rewrite skipn_repeat.
  change ([] ++ iv ++ repeat x00 (List.length encryptedData))
    with (iv ++ repeat x00 (List.length encryptedData)).
  rewrite length_app, repeat_length, Nat.leb_refl.
  rewrite firstn_app, firstn_all, Nat.sub_diag. cbn [firstn].
  rewrite app_nil_r.
  rewrite skipn_all2 by (rewrite length_app, repeat_length; lia).
  now rewrite app_nil_r.
Qed.

Lemma formatOutput_value (iv encryptedData : bytes) :
  OutputFormatter.formatOutput iv encryptedData
  = Normal (base64_encode (fromCharCode (iv ++ encryptedData))).
Proof.
  unfold OutputFormatter.formatOutput.
  pose proof (combined_layout iv encryptedData) as H. cbv zeta in H.
  destruct (Platform.set (repeat x00 _) iv 0) as [c1|]; [|discriminate].
  rewrite H. now rewrite btoa_fromCharCode.
Qed.

Lemma envelope_parts (nonce ciphertext tag : bytes) :
  let decoded := nonce ++ ciphertext ++ tag in
  firstn (List.length nonce) decoded = nonce
  /\ firstn (List.length decoded - (List.length nonce + List.length tag))
       (skipn (List.length nonce) decoded) = ciphertext
  /\ skipn (List.length decoded - List.length tag) decoded = tag.
Proof.
  cbv zeta. rewrite !length_app. repeat split.
  - rewrite firstn_app, Nat.sub_diag, firstn_all, firstn_O. apply app_nil_r.
  - rewrite skipn_app, Nat.sub_diag, skipn_all, skipn_O, app_nil_l.
    replace (List.length nonce + (List.length ciphertext + List.length tag)
             - (List.length nonce + List.length tag))%nat
      with (List.length ciphertext) by lia.
    rewrite firstn_app, Nat.sub_diag, firstn_all, firstn_O. apply app_nil_r.
  - replace (List.length nonce + (List.length ciphertext + List.length tag)
             - List.length tag)%nat
      with (List.length (nonce ++ ciphertext)) by (rewrite length_app; lia).
    rewrite app_assoc, skipn_app, Nat.sub_diag, skipn_all, skipn_O. reflexivity.
Qed.

(** C8.  Decoding the text [formatOutput] produces gives back
    IV ‖ encrypted data, for every IV and every buffer; with a 12-byte
    nonce and a 16-byte tag, the three parts of the envelope are read back
    byte for byte. *)
Theorem formatOutput_roundtrip :
  (forall iv encryptedData : bytes,
     exists text,
       OutputFormatter.formatOutput iv encryptedData = Normal text
       /\ decode_bytes text = Some (iv ++ encryptedData))
  /\ (forall nonce ciphertext tag : bytes,
       List.length nonce = 12%nat -> List.length tag = 16%nat ->
       exists text decoded,
         OutputFormatter.formatOutput nonce (ciphertext ++ tag) = Normal text
         /\ decode_bytes text = Some decoded
         /\ nonce_of decoded = nonce
         /\ ciphertext_of decoded = ciphertext
         /\ tag_of decoded = tag).
Proof.
  split.
  - intros iv enc. eexists. split; [apply formatOutput_value|].
    apply decode_bytes_encode.
  - intros nonce ct tag Hn Ht. do 2 eexists.
    split; [apply formatOutput_value|].
    split; [apply decode_bytes_encode|].
    pose proof (envelope_parts nonce ct tag) as (H1 & H2 & H3).
    rewrite Hn, Ht in *. change (12 + 16)%nat with 28%nat in H2.
    unfold nonce_of, ciphertext_of, tag_of. auto.
Qed.

Lemma formatOutput_roundtrip_witness :
  exists text decoded,
    OutputFormatter.formatOutput (repeat x01 12) ([x02; x03] ++ repeat x04 16)
    = Normal text
    /\ decode_bytes text = Some decoded
    /\ nonce_of decoded = repeat x01 12
    /\ ciphertext_of decoded = [x02; x03]
    /\ tag_of decoded = repeat x04 16.
Proof.
  apply (proj2 formatOutput_roundtrip (repeat x01 12) [x02; x03] (repeat x04 16));
    reflexivity.
Defined.

(** ** InputValidator *)

Section Validator.

Import InputValidator.

Lemma dangerousChars_spec (c : N) :
  dangerousChars c = true <-> control_character c.
Proof.
  unfold dangerousChars, control_character.
  rewrite !orb_true_iff, andb_true_iff, !N.leb_le, !N.eqb_eq. tauto.
Qed.

Lemma test_dangerousChars_false (text : jsstring) :
  test dangerousChars text = false
  <-> forall c, In c text -> ~ control_character c.
Proof.
  unfold test. split.
  - intros H c Hc Hctl.
    assert (existsb dangerousChars text = true); [|congruence].
    apply existsb_exists. exists c. split; [exact Hc|].
    now apply dangerousChars_spec.
  - intros H. destruct (existsb dangerousChars text) eqn:E; [|reflexivity].
    apply existsb_exists in E as (c & Hc & Hd).
    apply dangerousChars_spec in Hd. now destruct (H c Hc).
Qed.

(** The three checks of [validate], in the order they are made. *)
Lemma validate_errors (input : jsstring) :
  errors (validate input)
  = (if length input =? 0 then [lit "Input cannot be empty"] else [])
    ++ (if 10000 <? length input then [too_long_message input] else [])
    ++ (if test dangerousChars input
        then [lit "Input contains invalid control characters"] else []).
Proof.
  unfold validate. cbn [errors].
  destruct (length input =? 0), (10000 <? length input),
    (test dangerousChars input); reflexivity.
Qed.

Lemma validate_isValid (input : jsstring) :
  isValid (validate input)
  = negb (length input =? 0) && negb (10000 <? length input)
    && negb (test dangerousChars input).
Proof.
  unfold validate. cbn [isValid].
  destruct (length input =? 0), (10000 <? length input),
    (test dangerousChars input); reflexivity.
Qed.

Lemma validate_sanitized (input : jsstring) :
  sanitized (validate input) = sanitize input.
Proof. reflexivity. Qed.

(** An invalid input has a first reason, one of the three messages. *)
Lemma invalid_first_reason (input : jsstring) :
  isValid (validate input) = false ->
  hd [] (errors (validate input))
  = if length input =? 0 then lit "Input cannot be empty"
    else if 10000 <? length input then too_long_message input
    else lit "Input contains invalid control characters".
Proof.
  rewrite validate_isValid, validate_errors.
  destruct (length input =? 0), (10000 <? length input),
    (test dangerousChars input); cbn; congruence.
Qed.

(** C3.  [validate] accepts exactly the texts of 1 to 10000 characters
    without control characters; an empty text has a reason mentioning
    "empty", a text of 10001 characters a reason citing "10001/10000". *)
Theorem validate_accepts_iff (text : jsstring) :
  (isValid (validate text) = true
   <-> (1 <= length text <= 10000
        /\ forall c, In c text -> ~ control_character c))
  /\ (length text = 0 ->
      exists reason, In reason (errors (validate text))
                     /\ includes (lit "empty") reason = true)
  /\ (length text = 10001 ->
      exists reason, In reason (errors (validate text))
                     /\ includes (lit "10001/10000") reason = true).
Proof.
  split; [|split].
  - rewrite validate_isValid, !andb_true_iff, !negb_true_iff.
    rewrite N.eqb_neq, N.ltb_ge, test_dangerousChars_false.
    split; intros H; repeat split; try apply H; lia.
  - intros H0. exists (lit "Input cannot be empty").
    rewrite validate_errors, H0. split; [now left|reflexivity].
  - intros H. exists (lit "Input too long: 10001/10000 characters").
    rewrite validate_errors. unfold too_long_message. rewrite H.
    split; [|vm_compute; reflexivity].
    apply in_or_app. right. apply in_or_app. left. now left.
Qed.

(** *** [sanitize] against the normalization of the specification *)

Lemma trimStart_spec (s : jsstring) : trimStart s = drop_leading_whitespace s.
Proof. induction s as [|c t IH]; cbn; [|rewrite IH]; reflexivity. Qed.

Lemma trimStart_snoc (l : jsstring) (c : N) :
  trimStart (l ++ [c])
  = match trimStart l with
    | [] => if is_whitespace c then [] else [c]
    | x :: l' => (x :: l') ++ [c]
    end.
Proof.
  induction l as [|x l IH].
  - simpl. destruct (is_whitespace c); reflexivity.
  - change (trimStart ((x :: l) ++ [c]))
      with (if is_whitespace x then trimStart (l ++ [c]) else x :: l ++ [c]).
    change (trimStart (x :: l))
      with (if is_whitespace x then trimStart l else x :: l).
    destruct (is_whitespace x); [exact IH|reflexivity].
Qed.

Lemma trimEnd_spec (s : jsstring) : trimEnd s = drop_trailing_whitespace s.
Proof.
  unfold trimEnd. induction s as [|c t IH]; [reflexivity|].
  cbn [rev drop_trailing_whitespace]. rewrite trimStart_snoc, <- IH.
  destruct (trimStart (rev t)) as [|x l'].
  - cbn [rev]. destruct (is_whitespace c); reflexivity.
  - rewrite rev_app_distr. cbn [rev app].
    destruct (rev l' ++ [x]) eqn:E; [|reflexivity].
    now destruct (rev l').
Qed.

Lemma replace_dangerousChars (s : jsstring) :
  replace dangerousChars [] s = strip_control s.
Proof.
  unfold replace. induction s as [|c t IH]; [reflexivity|].
  cbn [flat_map strip_control]. fold (dangerousChars c).
  rewrite IH. destruct (dangerousChars c); reflexivity.
Qed.

Lemma jsstring_eqb_single (c n : N) : jsstring_eqb [c] [n] = (c =? n).
Proof.
  unfold jsstring_eqb.
  destruct (list_eq_dec N.eq_dec [c] [n]) as [E|E], (N.eqb_spec c n);
    congruence.
Qed.

Lemma replace_escape (k : string) (n : N) (entity s : jsstring) :
  lit k = [n] -> replace (is_char k) entity s = escape n entity s.
Proof.
  intros Hk. unfold replace, is_char. rewrite Hk.
  induction s as [|c t IH]; [reflexivity|].
  cbn [flat_map escape]. rewrite IH, jsstring_eqb_single.
  destruct (c =? n); reflexivity.
Qed.

Lemma sanitize_normalize (input : jsstring) :
  sanitize input = normalize_spec input.
Proof.
  unfold sanitize, normalize_spec, trim. cbv zeta.
  rewrite trimEnd_spec, trimStart_spec, replace_dangerousChars.
  rewrite (replace_escape "&" 0x26), (replace_escape "<" 0x3C),
    (replace_escape ">" 0x3E), (replace_escape dquote 0x22),
    (replace_escape "'" 0x27) by reflexivity.
  reflexivity.
Qed.

(** C4.  The sanitized text [validate] returns, valid or not, is the
    normalization of the specification: trim, strip the control characters,
    then escape [&], [<], [>], the double quote and the apostrophe in this
    order; the script example comes out escaped. *)
Theorem sanitized_is_normalized :
  (forall input : jsstring,
     sanitized (validate input) = normalize_spec input)
  /\ sanitized (validate (lit "<script>alert(1)</script>"))
     = lit "&lt;script&gt;alert(1)&lt;/script&gt;".
Proof.
  split; [|vm_compute; reflexivity].
  intros input. rewrite validate_sanitized. apply sanitize_normalize.
Qed.

(** *** The five replacements as one pass *)

Lemma escape_app (c : N) (entity a b : jsstring) :
  escape c entity (a ++ b) = escape c entity a ++ escape c entity b.
Proof.
  induction a as [|x a IH]; [reflexivity|].
  simpl. rewrite IH.
  destruct (x =? c); [now rewrite app_assoc|reflexivity].
Qed.

Lemma escape_flat_map (c : N) (entity : jsstring) (f : N -> jsstring) (s : jsstring) :
  escape c entity (flat_map f s) = flat_map (fun x => escape c entity (f x)) s.
Proof.
  induction s as [|x s IH]; [reflexivity|].
  cbn [flat_map]. now rewrite escape_app, IH.
Qed.

Lemma escape_one (c : N) (entity s : jsstring) :
  escape c entity s = flat_map (fun x => escape c entity [x]) s.
Proof.
  induction s as [|x s IH]; [reflexivity|].
  cbn [flat_map]. rewrite <- IH. simpl.
  destruct (x =? c); [now rewrite app_nil_r|reflexivity].
Qed.

(** The later replacements leave the entities already inserted alone. *)
Lemma escape_all_one (x : N) :
  escape 0x27 (lit "&#x27;")
    (escape 0x22 (lit "&quot;")
      (escape 0x3E (lit "&gt;")
        (escape 0x3C (lit "&lt;")
          (escape 0x26 (lit "&amp;") [x])))) = escape_char x.
Proof.
  unfold escape_char.
  destruct (N.eqb_spec x 0x26) as [->|H1]; [reflexivity|].
  destruct (N.eqb_spec x 0x3C) as [->|H2]; [reflexivity|].
  destruct (N.eqb_spec x 0x3E) as [->|H3]; [reflexivity|].
  destruct (N.eqb_spec x 0x22) as [->|H4]; [reflexivity|].
  destruct (N.eqb_spec x 0x27) as [->|H5]; [reflexivity|].
  apply N.eqb_neq in H1, H2, H3, H4, H5.
  cbn [escape]. rewrite H1. cbn [escape]. rewrite H2. cbn [escape].
  rewrite H3. cbn [escape]. rewrite H4. cbn [escape]. now rewrite H5.
Qed.

Lemma sanitize_one_pass (input : jsstring) :
  sanitize input = flat_map escape_char (strip_control (trim input)).
Proof.
  rewrite sanitize_normalize. unfold normalize_spec. cbv zeta.
  unfold trim. rewrite trimEnd_spec, trimStart_spec.
  generalize (strip_control
                (drop_trailing_whitespace (drop_leading_whitespace input))).
  intros s. rewrite (escape_one 0x26), !escape_flat_map.
  apply flat_map_ext. intros x. apply escape_all_one.
Qed.

Lemma trimStart_length (s : jsstring) :
  (List.length (trimStart s) <= List.length s)%nat.
Proof.
  induction s as [|c t IH]; [apply Nat.le_refl|].
  change (trimStart (c :: t)) with (if is_whitespace c then trimStart t else c :: t).
  destruct (is_whitespace c); cbn [List.length]; lia.
Qed.

Lemma trim_length (s : jsstring) : (List.length (trim s) <= List.length s)%nat.
Proof.
  unfold trim, trimEnd. rewrite length_rev.
  pose proof (trimStart_length (rev (trimStart s))) as H.
  rewrite length_rev in H. pose proof (trimStart_length s). lia.
Qed.

Lemma strip_control_length (s : jsstring) :
  (List.length (strip_control s) <= List.length s)%nat.
Proof.
  induction s as [|c t IH]; [apply Nat.le_refl|].
  cbn [strip_control].
  destruct ((c <=? 8) || (c =? 11) || (c =? 12) || (14 <=? c) && (c <=? 31)
            || (c =? 127)); cbn [List.length]; lia.
Qed.

Lemma escape_char_length (c : N) : (List.length (escape_char c) <= 6)%nat.
Proof.
  unfold escape_char.
  repeat (match goal with |- context [if ?b then _ else _] => destruct b end);
    cbn; lia.
Qed.

Lemma flat_map_escape_length (s : jsstring) :
  (List.length (flat_map escape_char s) <= 6 * List.length s)%nat.
Proof.
  induction s as [|c t IH]; [cbn; lia|].
  cbn [flat_map]. rewrite length_app. cbn [List.length].
  pose proof (escape_char_length c). lia.
Qed.

(** Sanitizing multiplies the length by six at most. *)
Lemma sanitize_length (input : jsstring) :
  length (sanitize input) <= 6 * length input.
Proof.
  unfold length. rewrite sanitize_one_pass.
  pose proof (flat_map_escape_length (strip_control (trim input))).
  pose proof (strip_control_length (trim input)).
  pose proof (trim_length input). lia.
Qed.

End Validator.

(** ** The pipeline *)

Section Pipeline.

Import InputValidator EncryptionController.

Arguments validate : simpl never.
Arguments lit : simpl never.
Arguments length : simpl never.
Arguments TextEncoder_encode : simpl never.
Arguments base64_encode : simpl never.
Arguments fromCharCode : simpl never.
Arguments UIManager.validateInput : simpl never.
Arguments N.add : simpl never.
Arguments N.sub : simpl never.
Arguments N.ltb : simpl never.

(** [validateInput] touches the validation status and the button only. *)
Lemma validateInput_frame (e : Elements) :
  let e' := UIManager.validateInput e in
  inputText_value e' = inputText_value e
  /\ outputText_value e' = outputText_value e
  /\ copyBtn_disabled e' = copyBtn_disabled e
  /\ statusArea_hidden e' = statusArea_hidden e
  /\ errorMessage_hidden e' = errorMessage_hidden e
  /\ errorText_textContent e' = errorText_textContent e
  /\ successMessage_hidden e' = successMessage_hidden e
  /\ successText_textContent e' = successText_textContent e
  /\ processingIndicator_hidden e' = processingIndicator_hidden e.
Proof.
  cbv zeta. unfold UIManager.validateInput.
  destruct (length (inputText_value e) =? 0);
    [|destruct (isValid (validate (inputText_value e)))];
    cbn; repeat split; reflexivity.
Qed.

Lemma validateInput_status (e : Elements) :
  validationStatus_textContent (UIManager.validateInput e)
  = if length (inputText_value e) =? 0 then []
    else if isValid (validate (inputText_value e))
         then UIManager.check_mark :: lit " Valid input"
         else UIManager.ballot_x :: lit " "
              ++ hd [] (errors (validate (inputText_value e))).
Proof.
  unfold UIManager.validateInput.
  destruct (length (inputText_value e) =? 0);
    [|destruct (isValid (validate (inputText_value e)))]; reflexivity.
Qed.

(** Read the elements [validateInput] leaves alone through it. *)
Ltac through_validateInput :=
  unfold UIManager.hideProcessing;
  repeat match goal with
  | |- context [UIManager.validateInput ?x] =>
      let F := fresh "F" in
      pose proof (validateInput_frame x) as F; cbv zeta in F;
      let F1 := fresh in let F2 := fresh in let F3 := fresh in
      let F4 := fresh in let F5 := fresh in let F6 := fresh in
      let F7 := fresh in let F8 := fresh in let F9 := fresh in
      destruct F as (F1 & F2 & F3 & F4 & F5 & F6 & F7 & F8 & F9);
      rewrite ?F1, ?F2, ?F3, ?F4, ?F5, ?F6, ?F7, ?F8, ?F9;
      clear F1 F2 F3 F4 F5 F6 F7 F8 F9
  end.

(** What the [finally] block leaves. *)
Lemma finally_block_spec (w : World) :
  exists w',
    finally_block w = (w', [SetTimeout 100])
    /\ isProcessing (app w') = false
    /\ currentKey (app w') = currentKey (app w)
    /\ lastEncryptedData (app w') = lastEncryptedData (app w)
    /\ runs w' = runs w
    /\ timers w' = timers w ++ [now w + 100]
    /\ now w' = now w
    /\ elements w' = UIManager.hideProcessing (elements w).
Proof.
  eexists. split; [reflexivity|]. cbn. repeat split; reflexivity.
Qed.

(** *** The stretches of [processEncryption], one by one *)

Lemma call_rejected (w : World) :
  isProcessing (app w) = true -> step w CallProcessEncryption = Some (w, []).
Proof. intros H. cbn. unfold processEncryption. now rewrite H. Qed.

Lemma call_invalid (w : World) :
  let validation := validate (inputText_value (elements w)) in
  isProcessing (app w) = false ->
  isValid validation = false ->
  exists w',
    step w CallProcessEncryption
    = Some (w', [ConsoleError (hd [] (errors validation)); SetTimeout 100])
    /\ isProcessing (app w') = false
    /\ currentKey (app w') = currentKey (app w)
    /\ lastEncryptedData (app w') = lastEncryptedData (app w)
    /\ runs w' = runs w
    /\ timers w' = timers w ++ [now w + 100]
    /\ errorText_textContent (elements w') = generic_message
    /\ errorMessage_hidden (elements w') = false
    /\ outputText_value (elements w') = outputText_value (elements w)
    /\ validationStatus_textContent (elements w')
       = if length (inputText_value (elements w)) =? 0 then []
         else UIManager.ballot_x :: lit " " ++ hd [] (errors validation).
Proof.
  cbv zeta. intros Hidle Hinvalid.
  unfold step, processEncryption. rewrite Hidle.
  unfold try_from_start. cbn [elements ui set_elements set_isProcessing set_app
    UIManager.showProcessing UIManager.clearMessages inputText_value
    set_copyStatus_textContent set_successMessage_hidden set_errorMessage_hidden
    set_statusArea_hidden set_encryptBtn_disabled set_processingIndicator_hidden].
  rewrite Hinvalid. cbn [negb try_statement catch_block].
  match goal with |- context [finally_block ?x] =>
    destruct (finally_block_spec x) as (w' & E & H1 & H2 & H3 & H4 & H5 & H6 & H7)
  end.
  rewrite E. exists w'. split; [reflexivity|].
  rewrite H1, H2, H3, H4, H5, H7. unfold UIManager.hideProcessing.
  rewrite validateInput_status. through_validateInput.
  cbn. rewrite Hinvalid. repeat split; reflexivity.
Qed.

Lemma call_valid (w : World) :
  let validation := validate (inputText_value (elements w)) in
  isProcessing (app w) = false ->
  isValid validation = true ->
  exists w',
    step w CallProcessEncryption = Some (w', [SubtleGenerateKey])
    /\ isProcessing (app w') = true
    /\ currentKey (app w') = currentKey (app w)
    /\ lastEncryptedData (app w') = lastEncryptedData (app w)
    /\ runs w' = runs w ++ [AwaitGenerateKey (now w) validation]
    /\ timers w' = timers w
    /\ now w' = now w
    /\ inputText_value (elements w') = inputText_value (elements w).
Proof.
  cbv zeta. intros Hidle Hvalid.
  unfold step, processEncryption. rewrite Hidle.
  unfold try_from_start. cbn [elements ui set_elements set_isProcessing set_app
    UIManager.showProcessing UIManager.clearMessages inputText_value
    set_copyStatus_textContent set_successMessage_hidden set_errorMessage_hidden
    set_statusArea_hidden set_encryptBtn_disabled set_processingIndicator_hidden].
  rewrite Hvalid. cbn [negb try_statement].
  eexists. split; [reflexivity|]. cbn. repeat split; reflexivity.
Qed.

Lemma key_fulfilled (w : World) (i : nat) (startTime : N)
    (validation : ValidationResult) (key : CryptoKey) (random : nat -> byte) :
  nth_error (runs w) i = Some (AwaitGenerateKey startTime validation) ->
  let iv := map random (seq 0 12) in
  exists w',
    step w (KeySettled i (Some key) random)
    = Some (w', [GetRandomValues 12;
                 SubtleEncrypt key iv (TextEncoder_encode (sanitized validation))])
    /\ isProcessing (app w') = isProcessing (app w)
    /\ currentKey (app w') = Some key
    /\ lastEncryptedData (app w') = lastEncryptedData (app w)
    /\ runs w' = remove_at i (runs w) ++ [AwaitEncrypt startTime validation key iv]
    /\ timers w' = timers w
    /\ now w' = now w
    /\ elements w' = elements w.
Proof.
  intros Hrun. cbv zeta. unfold step. rewrite Hrun.
  eexists. split; [reflexivity|]. cbn. repeat split; reflexivity.
Qed.

Lemma key_rejected (w : World) (i : nat) (startTime : N)
    (validation : ValidationResult) (random : nat -> byte) :
  nth_error (runs w) i = Some (AwaitGenerateKey startTime validation) ->
  exists w',
    step w (KeySettled i None random)
    = Some (w', [ConsoleError (lit "Failed to generate cryptographic key");
                 SetTimeout 100])
    /\ isProcessing (app w') = false
    /\ currentKey (app w') = currentKey (app w)
    /\ lastEncryptedData (app w') = lastEncryptedData (app w)
    /\ runs w' = remove_at i (runs w)
    /\ timers w' = timers w ++ [now w + 100]
    /\ errorText_textContent (elements w') = generic_message.
Proof.
  intros Hrun. unfold step. rewrite Hrun.
  eexists. split; [reflexivity|].
  cbn. through_validateInput. repeat split; reflexivity.
Qed.

Lemma encrypt_fulfilled (w : World) (i : nat) (startTime : N)
    (validation : ValidationResult) (key : CryptoKey) (iv encryptedData : bytes) :
  nth_error (runs w) i = Some (AwaitEncrypt startTime validation key iv) ->
  exists w',
    step w (EncryptSettled i (Some encryptedData))
    = Some (w', (if 2000 <? now w - startTime then [ConsoleWarn] else [])
                ++ [SetTimeout 100])
    /\ isProcessing (app w') = false
    /\ currentKey (app w') = currentKey (app w)
    /\ lastEncryptedData (app w') = Some encryptedData
    /\ runs w' = remove_at i (runs w)
    /\ timers w' = timers w ++ [now w + 100]
    /\ outputText_value (elements w')
       = base64_encode (fromCharCode (iv ++ encryptedData))
    /\ copyBtn_disabled (elements w') = false
    /\ successText_textContent (elements w') = lit "Text encrypted successfully!".
Proof.
  intros Hrun. unfold step. rewrite Hrun.
  unfold try_from_encrypted. cbn [CryptographicEngine.encryptText_resume].
  rewrite formatOutput_value.
  cbn. destruct (2000 <? now w - startTime);
    (eexists; split; [reflexivity|]);
    cbn; through_validateInput; repeat split; reflexivity.
Qed.

Lemma encrypt_rejected (w : World) (i : nat) (startTime : N)
    (validation : ValidationResult) (key : CryptoKey) (iv : bytes) :
  nth_error (runs w) i = Some (AwaitEncrypt startTime validation key iv) ->
  exists w',
    step w (EncryptSettled i None)
    = Some (w', [ConsoleError (lit "Encryption operation failed"); SetTimeout 100])
    /\ isProcessing (app w') = false
    /\ currentKey (app w') = currentKey (app w)
    /\ lastEncryptedData (app w') = lastEncryptedData (app w)
    /\ runs w' = remove_at i (runs w)
    /\ timers w' = timers w ++ [now w + 100]
    /\ errorText_textContent (elements w') = generic_message.
Proof.
  intros Hrun. unfold step. rewrite Hrun.
  eexists. split; [reflexivity|].
  cbn. through_validateInput. repeat split; reflexivity.
Qed.

(** *** The invariant *)

Lemma run_ok_later (trace fx : list Effect) (r : Run) :
  run_ok trace r -> run_ok (trace ++ fx) r.
Proof.
  destruct r; cbn; [auto|]. intros (Hv & Hiv & Hin).
  repeat split; auto. apply in_or_app. now left.
Qed.

Lemma runs_ok_later (trace fx : list Effect) (l : list Run) :
  Forall (run_ok trace) l -> Forall (run_ok (trace ++ fx)) l.
Proof. intros H. eapply Forall_impl; [|exact H]. apply run_ok_later. Qed.

(** With at most one suspended call, the call a promise settles for is
    the only one. *)
Lemma only_run (w : World) (i : nat) (r : Run) :
  (List.length (runs w) <= 1)%nat -> nth_error (runs w) i = Some r ->
  runs w = [r] /\ remove_at i (runs w) = [].
Proof.
  intros Hlen Hnth. destruct (runs w) as [|r0 [|r1 l]]; cbn in Hlen.
  - now destruct i.
  - destruct i as [|i]; cbn in Hnth; [|now destruct i].
    injection Hnth as ->. split; reflexivity.
  - lia.
Qed.

Lemma invariant_intro (w : World) (trace : list Effect) :
  (runs w = [] /\ isProcessing (app w) = false)
  \/ (exists r, runs w = [r] /\ isProcessing (app w) = true /\ run_ok trace r) ->
  invariant w trace.
Proof.
  intros [(Hr & Hp)|(r & Hr & Hp & Hok)]; unfold invariant; rewrite Hr, Hp.
  - repeat split; cbn; auto; congruence.
  - repeat split; cbn; auto; congruence.
Qed.

Lemma invariant_cases (w : World) (trace : list Effect) :
  invariant w trace ->
  (runs w = [] /\ isProcessing (app w) = false)
  \/ (exists r, runs w = [r] /\ isProcessing (app w) = true /\ run_ok trace r).
Proof.
  intros (Hlen & Hflag & Hok).
  destruct (runs w) as [|r [|r' l]]; cbn in Hlen; [| |lia].
  - left. split; [reflexivity|].
    destruct (isProcessing (app w)); [|reflexivity].
    now destruct (proj1 Hflag eq_refl).
  - right. exists r. repeat split.
    + apply Hflag. discriminate.
    + now inversion Hok.
Qed.

Lemma invariant_same (w w' : World) (trace fx : list Effect) :
  runs w' = runs w -> isProcessing (app w') = isProcessing (app w) ->
  invariant w trace -> invariant w' (trace ++ fx).
Proof.
  intros Hr Hp (Hlen & Hflag & Hok). unfold invariant.
  rewrite Hr, Hp. repeat split; auto; try apply Hflag.
  now apply runs_ok_later.
Qed.

Lemma step_invariant (w w' : World) (ev : Event) (trace fx : list Effect) :
  invariant w trace -> step w ev = Some (w', fx) -> invariant w' (trace ++ fx).
Proof.
  intros Hinv Hstep. pose proof Hinv as (Hlen & Hflag & Hok).
  destruct ev as [text| |i settled random|i settled| | |ms].
  - (* the user edits the text *)
    injection Hstep as <- <-. now apply invariant_same with (w := w).
  - (* a call of processEncryption *)
    destruct (isProcessing (app w)) eqn:Hp.
    + rewrite (call_rejected w Hp) in Hstep. injection Hstep as <- <-.
      now apply invariant_same with (w := w).
    + destruct (invariant_cases w trace Hinv) as [(Hr & _)|(r & _ & Hp' & _)];
        [|congruence].
      destruct (isValid (validate (inputText_value (elements w)))) eqn:Hv.
      * destruct (call_valid w Hp Hv) as (w1 & E & H1 & _ & _ & H4 & _).
        rewrite E in Hstep. injection Hstep as <- <-.
        apply invariant_intro. right. eexists. rewrite H4, Hr.
        repeat split; [exact H1|exact Hv].
      * destruct (call_invalid w Hp Hv) as (w1 & E & H1 & _ & _ & H4 & _).
        rewrite E in Hstep. injection Hstep as <- <-.
        apply invariant_intro. left. rewrite H4. now split.
  - (* generateKey settles *)
    assert (exists start v, nth_error (runs w) i = Some (AwaitGenerateKey start v))
      as (start & v & Hnth).
    { unfold step in Hstep.
      destruct (nth_error (runs w) i) as [[start v|]|]; try discriminate; eauto. }
    destruct (only_run w i _ Hlen Hnth) as (Hr & Hrm).
    assert (Hv : isValid v = true).
    { rewrite Hr in Hok. now inversion Hok. }
    assert (Hp : isProcessing (app w) = true) by (apply Hflag; now rewrite Hr).
    destruct settled as [key|].
    + destruct (key_fulfilled w i start v key random Hnth)
        as (w1 & E & H1 & _ & _ & H4 & _).
      rewrite E in Hstep. injection Hstep as <- <-.
      apply invariant_intro. right. eexists. rewrite H4, Hrm, H1.
      repeat split; [exact Hp|exact Hv|].
      apply in_or_app. right. right. now left.
    + destruct (key_rejected w i start v random Hnth) as (w1 & E & H1 & _ & _ & H4 & _).
      rewrite E in Hstep. injection Hstep as <- <-.
      apply invariant_intro. left. rewrite H4, Hrm. now split.
  - (* encryptText settles *)
    assert (exists start v key iv,
              nth_error (runs w) i = Some (AwaitEncrypt start v key iv))
      as (start & v & key & iv & Hnth).
    { unfold step in Hstep.
      destruct (nth_error (runs w) i) as [[|start v key iv]|];
        try discriminate; eauto 6. }
    destruct (only_run w i _ Hlen Hnth) as (Hr & Hrm).
    destruct settled as [enc|].
    + destruct (encrypt_fulfilled w i start v key iv enc Hnth) as (w1 & E & H1 & _ & _ & H4 & _).
      rewrite E in Hstep. injection Hstep as <- <-.
      apply invariant_intro. left. rewrite H4, Hrm. now split.
    + destruct (encrypt_rejected w i start v key iv Hnth) as (w1 & E & H1 & _ & _ & H4 & _).
      rewrite E in Hstep. injection Hstep as <- <-.
      apply invariant_intro. left. rewrite H4, Hrm. now split.
  - (* a timer fires *)
    cbn in Hstep. destruct (timers w) as [|due rest]; [discriminate|].
    destruct (due <=? now w); [|discriminate].
    injection Hstep as <- <-. now apply invariant_same with (w := w).
  - (* the clear button *)
    injection Hstep as <- <-. now apply invariant_same with (w := w).
  - (* time passes *)
    injection Hstep as <- <-. now apply invariant_same with (w := w).
Qed.

Lemma steps_invariant (evs : list Event) (w w' : World) (trace fx : list Effect) :
  invariant w trace -> steps w evs = Some (w', fx) -> invariant w' (trace ++ fx).
Proof.
  revert w trace fx. induction evs as [|ev evs IH]; intros w trace fx Hinv Hsteps.
  - injection Hsteps as <- <-. now rewrite app_nil_r.
  - cbn [steps] in Hsteps.
    destruct (step w ev) as [[w1 fx1]|] eqn:E1; [|discriminate].
    destruct (steps w1 evs) as [[w2 fx2]|] eqn:E2; [|discriminate].
    injection Hsteps as <- <-. rewrite app_assoc.
    apply (IH w1); [|exact E2]. now apply step_invariant with (w := w) (ev := ev).
Qed.

Lemma initial_invariant (e : Elements) : invariant (initial e) [].
Proof. apply invariant_intro. left. split; reflexivity. Qed.

Lemma reachable_invariant (e : Elements) (evs : list Event) (w : World)
    (trace : list Effect) :
  steps (initial e) evs = Some (w, trace) -> invariant w trace.
Proof.
  intros H. apply (steps_invariant evs _ _ _ _ (initial_invariant e) H).
Qed.

(** *** Validation failures *)

(** C7.  A call on an input that fails validation ends within the call:
    it shows the failure and leaves no call suspended, without calling key
    generation, the random source or encryption, and without creating a key
    reference. *)
Theorem invalid_input_no_crypto (w : World) :
  isProcessing (app w) = false ->
  isValid (validate (inputText_value (elements w))) = false ->
  exists w' fx,
    step w CallProcessEncryption = Some (w', fx)
    /\ ~ In SubtleGenerateKey fx
    /\ (forall n, ~ In (GetRandomValues n) fx)
    /\ (forall key iv data, ~ In (SubtleEncrypt key iv data) fx)
    /\ runs w' = runs w
    /\ isProcessing (app w') = false
    /\ currentKey (app w') = currentKey (app w)
    /\ lastEncryptedData (app w') = lastEncryptedData (app w)
    /\ errorMessage_hidden (elements w') = false.
Proof.
  intros Hidle Hinvalid.
  destruct (call_invalid w Hidle Hinvalid)
    as (w' & E & H1 & H2 & H3 & H4 & _ & _ & H7 & _).
  exists w'. eexists. split; [exact E|].
  repeat split; auto; cbn; intuition discriminate.
Qed.

Lemma invalid_input_no_crypto_witness :
  exists w' fx,
    step (initial (page [])) CallProcessEncryption = Some (w', fx)
    /\ ~ In SubtleGenerateKey fx
    /\ runs w' = [].
Proof.
  destruct (invalid_input_no_crypto (initial (page [])) eq_refl eq_refl)
    as (w' & fx & E & H1 & _ & _ & H4 & _).
  exists w', fx. repeat split; assumption.
Defined.

(** C1, as the code has it.  A call on an input that fails validation
    delivers the fixed message "Encryption failed. Please try again." to
    the error display; the first validation reason goes to the console in
    the thrown error, and, when the input is not empty, to the validation
    status line behind a ballot cross. *)
Theorem validation_failure_message (w : World) :
  let input := inputText_value (elements w) in
  let reason := hd [] (errors (validate input)) in
  isProcessing (app w) = false ->
  isValid (validate input) = false ->
  exists w',
    step w CallProcessEncryption
    = Some (w', [ConsoleError reason; SetTimeout 100])
    /\ errorText_textContent (elements w')
       = lit "Encryption failed. Please try again."
    /\ errorMessage_hidden (elements w') = false
    /\ validationStatus_textContent (elements w')
       = (if length input =? 0 then []
          else UIManager.ballot_x :: lit " " ++ reason)
    /\ reason
       = (if length input =? 0 then lit "Input cannot be empty"
          else if 10000 <? length input then too_long_message input
          else lit "Input contains invalid control characters").
Proof.
  cbv zeta. intros Hidle Hinvalid.
  destruct (call_invalid w Hidle Hinvalid)
    as (w' & E & _ & _ & _ & _ & _ & H6 & H7 & _ & H9).
  exists w'. repeat split; auto. now apply invalid_first_reason.
Qed.

Lemma validation_failure_message_witness :
  exists w',
    step (initial (page [0x07])) CallProcessEncryption
    = Some (w', [ConsoleError (lit "Input contains invalid control characters");
                 SetTimeout 100])
    /\ errorText_textContent (elements w')
       = lit "Encryption failed. Please try again.".
Proof.
  destruct (validation_failure_message (initial (page [0x07])) eq_refl eq_refl)
    as (w' & E & H1 & _).
  exists w'. split; [exact E|exact H1].
Defined.

(** C1, as stated, fails: on 10001 letters the first validation reason is
    the length message, and the message delivered is the fixed one. *)
Lemma first_reason_not_delivered :
  let w := initial (page (repeat 0x61 (N.to_nat 10001))) in
  let validation := validate (inputText_value (elements w)) in
  isValid validation = false
  /\ hd [] (errors validation) = lit "Input too long: 10001/10000 characters"
  /\ exists w' fx,
       step w CallProcessEncryption = Some (w', fx)
       /\ errorText_textContent (elements w')
          = lit "Encryption failed. Please try again."
       /\ errorText_textContent (elements w') <> hd [] (errors validation).
Proof.
  cbv zeta.
  assert (Hinvalid : isValid (validate (inputText_value (elements
            (initial (page (repeat 0x61 (N.to_nat 10001))))))) = false)
    by (vm_compute; reflexivity).
  assert (Hreason : hd [] (errors (validate (inputText_value (elements
            (initial (page (repeat 0x61 (N.to_nat 10001))))))))
          = lit "Input too long: 10001/10000 characters")
    by (vm_compute; reflexivity).
  split; [exact Hinvalid|]. split; [exact Hreason|].
  destruct (call_invalid (initial (page (repeat 0x61 (N.to_nat 10001))))
              eq_refl Hinvalid)
    as (w' & E & _ & _ & _ & _ & _ & H6 & _).
  exists w'. eexists. split; [exact E|]. split; [exact H6|].
  rewrite H6, Hreason. vm_compute. discriminate.
Qed.

(** *** The release of the sensitive references *)

Lemma remove_at_length {A} (l : list A) (i : nat) (x : A) :
  nth_error l i = Some x -> S (List.length (remove_at i l)) = List.length l.
Proof.
  intros H. unfold remove_at.
  assert (i < List.length l)%nat by (apply nth_error_Some; congruence).
  rewrite length_app, length_firstn, length_skipn. lia.
Qed.

Lemma timer_fires (w : World) (due : N) (rest : list N) :
  timers w = due :: rest -> due <= now w ->
  exists w',
    step w TimerFires = Some (w', [ClearedSensitiveData])
    /\ currentKey (app w') = None
    /\ lastEncryptedData (app w') = None
    /\ isProcessing (app w') = isProcessing (app w)
    /\ timers w' = rest.
Proof.
  intros Ht Hdue. unfold step. rewrite Ht.
  apply N.leb_le in Hdue. rewrite Hdue.
  eexists. split; [reflexivity|]. cbn. repeat split; reflexivity.
Qed.

(** What the [finally] block does about the release.  On every exit
    path of a call that passed the guard it registers a timer of 100 ms for
    [clearSensitiveData] and returns without having run it; the step that
    ends the call leaves the key reference as it was, and the timer, once
    it fires, clears both references. *)
Theorem release_is_deferred (w w' : World) (ev : Event) (fx : list Effect) :
  step w ev = Some (w', fx) ->
  ends_run w ev w' = true ->
  timers w' = timers w ++ [now w + 100]
  /\ (exists fx0, fx = fx0 ++ [SetTimeout 100])
  /\ ~ In ClearedSensitiveData fx
  /\ currentKey (app w') = currentKey (app w)
  /\ (forall w2 rest,
        timers w2 = (now w + 100) :: rest -> now w + 100 <= now w2 ->
        exists w3,
          step w2 TimerFires = Some (w3, [ClearedSensitiveData])
          /\ currentKey (app w3) = None
          /\ lastEncryptedData (app w3) = None).
Proof.
  intros Hstep Hends.
  assert (Hfire : forall w2 rest,
        timers w2 = (now w + 100) :: rest -> now w + 100 <= now w2 ->
        exists w3,
          step w2 TimerFires = Some (w3, [ClearedSensitiveData])
          /\ currentKey (app w3) = None
          /\ lastEncryptedData (app w3) = None).
  { intros w2 rest Ht Hdue.
    destruct (timer_fires w2 (now w + 100) rest Ht Hdue) as (w3 & E & H1 & H2 & _).
    exists w3. auto. }
  destruct ev as [text| |i settled random|i settled| | |ms];
    cbn [ends_run] in Hends; try discriminate.
  - (* the call returns from its first stretch *)
    apply andb_true_iff in Hends as [Hidle Hsame].
    apply negb_true_iff in Hidle. apply Nat.eqb_eq in Hsame.
    destruct (isValid (validate (inputText_value (elements w)))) eqn:Hv.
    + destruct (call_valid w Hidle Hv) as (w1 & E & _ & _ & _ & H4 & _).
      rewrite E in Hstep. injection Hstep as <- <-.
      rewrite H4, length_app in Hsame. cbn in Hsame. lia.
    + destruct (call_invalid w Hidle Hv) as (w1 & E & _ & H2 & _ & _ & H5 & _).
      rewrite E in Hstep. injection Hstep as <- <-.
      repeat split; auto.
      * now exists [ConsoleError (hd [] (errors (validate (inputText_value (elements w)))))].
      * cbn. intuition discriminate.
  - (* generateKey settled *)
    apply Nat.ltb_lt in Hends.
    assert (exists start v, nth_error (runs w) i = Some (AwaitGenerateKey start v))
      as (start & v & Hnth).
    { unfold step in Hstep.
      destruct (nth_error (runs w) i) as [[start v|]|]; try discriminate; eauto. }
    pose proof (remove_at_length _ _ _ Hnth) as Hlen.
    destruct settled as [key|].
    + destruct (key_fulfilled w i start v key random Hnth)
        as (w1 & E & _ & _ & _ & H4 & _).
      rewrite E in Hstep. injection Hstep as <- <-.
      rewrite H4, length_app in Hends. cbn in Hends. lia.
    + destruct (key_rejected w i start v random Hnth)
        as (w1 & E & _ & H2 & _ & _ & H5 & _).
      rewrite E in Hstep. injection Hstep as <- <-.
      repeat split; auto.
      * now exists [ConsoleError (lit "Failed to generate cryptographic key")].
      * cbn. intuition discriminate.
  - (* encryptText settled *)
    assert (exists start v key iv,
              nth_error (runs w) i = Some (AwaitEncrypt start v key iv))
      as (start & v & key & iv & Hnth).
    { unfold step in Hstep.
      destruct (nth_error (runs w) i) as [[|start v key iv]|];
        try discriminate; eauto 6. }
    destruct settled as [enc|].
    + destruct (encrypt_fulfilled w i start v key iv enc Hnth)
        as (w1 & E & _ & H2 & _ & _ & H5 & _).
      rewrite E in Hstep. injection Hstep as <- <-.
      repeat split; auto.
      * now exists (if 2000 <? now w - start then [ConsoleWarn] else []).
      * destruct (2000 <? now w - start); cbn; intuition discriminate.
    + destruct (encrypt_rejected w i start v key iv Hnth)
        as (w1 & E & _ & H2 & _ & _ & H5 & _).
      rewrite E in Hstep. injection Hstep as <- <-.
      repeat split; auto.
      * now exists [ConsoleError (lit "Encryption operation failed")].
      * cbn. intuition discriminate.
Qed.

Lemma release_is_deferred_witness :
  let w := initial (page []) in
  let w' := fst (processEncryption w) in
  timers w' = [100] /\ currentKey (app w') = None.
Proof.
  cbv zeta.
  assert (Hstep : step (initial (page [])) CallProcessEncryption
                  = Some (fst (processEncryption (initial (page []))),
                          snd (processEncryption (initial (page [])))))
    by (vm_compute; reflexivity).
  assert (Hends : ends_run (initial (page [])) CallProcessEncryption
                    (fst (processEncryption (initial (page [])))) = true)
    by (vm_compute; reflexivity).
  destruct (release_is_deferred _ _ _ _ Hstep Hends) as (Ht & _ & _ & Hk & _).
  split; [exact Ht|exact Hk].
Defined.

(** *** A call from start to success, nothing else happening *)

Lemma straight_run (w : World) (key : CryptoKey) (random : nat -> byte)
    (encryptedData : bytes) :
  let input := inputText_value (elements w) in
  let iv := map random (seq 0 12) in
  idle w ->
  isValid (validate input) = true ->
  exists w',
    steps w [CallProcessEncryption;
             KeySettled 0 (Some key) random;
             EncryptSettled 0 (Some encryptedData)]
    = Some (w', [SubtleGenerateKey; GetRandomValues 12;
                 SubtleEncrypt key iv (TextEncoder_encode (sanitize input));
                 SetTimeout 100])
    /\ isProcessing (app w') = false
    /\ runs w' = []
    /\ currentKey (app w') = Some key
    /\ lastEncryptedData (app w') = Some encryptedData
    /\ timers w' = timers w ++ [now w + 100]
    /\ outputText_value (elements w')
       = base64_encode (fromCharCode (iv ++ encryptedData)).
Proof.
  cbv zeta. intros (Hidle & Hruns) Hvalid.
  destruct (call_valid w Hidle Hvalid)
    as (w1 & E1 & _ & _ & _ & R1 & T1 & N1 & _).
  rewrite Hruns in R1. cbn [app] in R1.
  assert (Hnth1 : nth_error (runs w1) 0
                  = Some (AwaitGenerateKey (now w)
                            (validate (inputText_value (elements w)))))
    by now rewrite R1.
  destruct (key_fulfilled w1 0 _ _ key random Hnth1)
    as (w2 & E2 & _ & K2 & _ & R2 & T2 & N2 & _).
  rewrite R1 in R2. cbn [remove_at firstn skipn app] in R2.
  assert (Hnth2 : nth_error (runs w2) 0
                  = Some (AwaitEncrypt (now w)
                            (validate (inputText_value (elements w))) key
                            (map random (seq 0 12))))
    by now rewrite R2.
  destruct (encrypt_fulfilled w2 0 _ _ _ _ encryptedData Hnth2)
    as (w3 & E3 & P3 & K3 & L3 & R3 & T3 & O3 & _).
  rewrite N2, N1, N.sub_diag in E3.
  change (2000 <? 0) with false in E3. cbn [app] in E3.
  exists w3. cbn [steps]. rewrite E1, E2, E3.
  split; [reflexivity|].
  rewrite R3, R2, K3, K2, T3, T2, T1, N2, N1.
  repeat split; auto.
Qed.

(** C2.  The release is to be invoked on every exit path before the
    pipeline returns; the code does not do so.  On the text "a" with a
    provider that succeeds, the call has returned (no call suspended, flag
    down) with the key and the encrypted data still referenced and
    [clearSensitiveData] not run: the [finally] block only left a timer
    due 100 ms later. *)
Lemma references_live_at_return :
  let w := initial (page (lit "a")) in
  exists w' fx,
    steps w [CallProcessEncryption;
             KeySettled 0 (Some (Key 1)) (fun _ => x00);
             EncryptSettled 0 (Some (repeat x00 17))] = Some (w', fx)
    /\ isProcessing (app w') = false
    /\ runs w' = []
    /\ currentKey (app w') = Some (Key 1)
    /\ lastEncryptedData (app w') = Some (repeat x00 17)
    /\ ~ In ClearedSensitiveData fx
    /\ timers w' = [100].
Proof.
  cbv zeta.
  destruct (straight_run (initial (page (lit "a"))) (Key 1) (fun _ => x00)
              (repeat x00 17) (conj eq_refl eq_refl) eq_refl)
    as (w' & E & H1 & H2 & H3 & H4 & H5 & _).
  exists w'. eexists. split; [exact E|].
  repeat split; auto. cbn. intuition discriminate.
Qed.

(** *** Single flight *)

(** C6.  In every state the page reaches, at most one call of
    [processEncryption] is suspended, and the flag is set exactly then; a
    call made while the flag is set returns at once, leaving the state as
    it is and producing nothing; whenever no call is suspended the flag is
    down, and a new call passes the guard. *)
Theorem single_flight (e : Elements) (evs : list Event) (w : World)
    (trace : list Effect) :
  steps (initial e) evs = Some (w, trace) ->
  (List.length (runs w) <= 1)%nat
  /\ (isProcessing (app w) = true <-> runs w <> [])
  /\ (isProcessing (app w) = true ->
      step w CallProcessEncryption = Some (w, []))
  /\ (forall ev w' fx,
        step w ev = Some (w', fx) ->
        (List.length (runs w') <= 1)%nat
        /\ (runs w' = [] -> isProcessing (app w') = false))
  /\ (isProcessing (app w) = false ->
      isValid (validate (inputText_value (elements w))) = true ->
      exists w',
        step w CallProcessEncryption = Some (w', [SubtleGenerateKey])
        /\ isProcessing (app w') = true
        /\ runs w'
           = [AwaitGenerateKey (now w) (validate (inputText_value (elements w)))]).
Proof.
  intros Hreach. pose proof (reachable_invariant e evs w trace Hreach) as Hinv.
  pose proof Hinv as (Hlen & Hflag & _).
  split; [exact Hlen|]. split; [exact Hflag|].
  split; [apply call_rejected|]. split.
  - intros ev w' fx Hstep.
    pose proof (step_invariant w w' ev trace fx Hinv Hstep) as (Hlen' & Hflag' & _).
    split; [exact Hlen'|]. intros Hr.
    destruct (isProcessing (app w')); [|reflexivity].
    now destruct (proj1 Hflag' eq_refl).
  - intros Hidle Hvalid.
    destruct (call_valid w Hidle Hvalid) as (w' & E & H1 & _ & _ & H4 & _).
    exists w'. repeat split; auto.
    destruct (invariant_cases w trace Hinv) as [(Hr & _)|(r & _ & Hp & _)];
      [|congruence].
    now rewrite H4, Hr.
Qed.

Lemma single_flight_witness :
  let w := fst (processEncryption (initial (page (lit "a")))) in
  (List.length (runs w) <= 1)%nat
  /\ step w CallProcessEncryption = Some (w, []).
Proof.
  cbv zeta.
  assert (Hreach : steps (initial (page (lit "a"))) [CallProcessEncryption]
                   = Some (fst (processEncryption (initial (page (lit "a")))),
                           [SubtleGenerateKey]))
    by (vm_compute; reflexivity).
  destruct (single_flight _ _ _ _ Hreach) as (H1 & _ & H3 & _).
  split; [exact H1|]. apply H3. vm_compute. reflexivity.
Defined.

(** *** The encoded result *)

(** C5.  When the provider returns the ciphertext followed by a 16-byte
    tag for the data it was called on, the text put in the output decodes
    to the 12-byte IV, then the ciphertext, then the tag, 12 + the number
    of plaintext bytes + 16 bytes in all; for "Hello, World!" that is 41
    bytes. *)
Theorem encoded_layout :
  (forall e evs w trace i startTime validation key iv encryptedData,
     let plaintext := TextEncoder_encode (sanitized validation) in
     steps (initial e) evs = Some (w, trace) ->
     nth_error (runs w) i = Some (AwaitEncrypt startTime validation key iv) ->
     List.length encryptedData = (List.length plaintext + 16)%nat ->
     In (SubtleEncrypt key iv plaintext) trace
     /\ exists w' fx decoded,
          step w (EncryptSettled i (Some encryptedData)) = Some (w', fx)
          /\ decode_bytes (outputText_value (elements w')) = Some decoded
          /\ decoded = iv ++ encryptedData
          /\ nonce_of decoded = iv
          /\ List.length (nonce_of decoded) = 12%nat
          /\ ciphertext_of decoded = firstn (List.length plaintext) encryptedData
          /\ tag_of decoded = skipn (List.length plaintext) encryptedData
          /\ List.length (tag_of decoded) = 16%nat
          /\ List.length decoded = (12 + List.length plaintext + 16)%nat)
  /\ (forall w key random encryptedData,
        idle w ->
        inputText_value (elements w) = lit "Hello, World!" ->
        List.length encryptedData = (13 + 16)%nat ->
        exists w' fx decoded,
          steps w [CallProcessEncryption;
                   KeySettled 0 (Some key) random;
                   EncryptSettled 0 (Some encryptedData)] = Some (w', fx)
          /\ In (SubtleEncrypt key (map random (seq 0 12))
                   (TextEncoder_encode (lit "Hello, World!"))) fx
          /\ List.length (TextEncoder_encode (lit "Hello, World!")) = 13%nat
          /\ decode_bytes (outputText_value (elements w')) = Some decoded
          /\ List.length decoded = 41%nat).
Proof.
  split.
  - intros e evs w trace i start v key iv enc plaintext Hreach Hnth Hlen.
    pose proof (reachable_invariant e evs w trace Hreach) as (_ & _ & Hok).
    assert (Hrun : run_ok trace (AwaitEncrypt start v key iv)).
    { apply (proj1 (Forall_forall _ _) Hok). eapply nth_error_In, Hnth. }
    destruct Hrun as (_ & Hiv & Hin). split; [exact Hin|].
    destruct (encrypt_fulfilled w i start v key iv enc Hnth)
      as (w' & E & _ & _ & _ & _ & _ & Hout & _).
    exists w'. eexists. exists (iv ++ enc).
    split; [exact E|]. split; [rewrite Hout; apply decode_bytes_encode|].
    split; [reflexivity|].
    pose proof (envelope_parts iv (firstn (List.length plaintext) enc)
                  (skipn (List.length plaintext) enc)) as (P1 & P2 & P3).
    rewrite firstn_skipn in P1, P2, P3.
    assert (Htag : List.length (skipn (List.length plaintext) enc) = 16%nat)
      by (rewrite length_skipn; lia).
    rewrite Htag, Hiv in *. change (12 + 16)%nat with 28%nat in P2.
    unfold nonce_of, ciphertext_of, tag_of.
    rewrite P1, P2, P3, length_app, Hiv, Hlen.
    repeat split; auto.
  - intros w key random enc Hidle Hinput Hlen.
    assert (Hvalid : isValid (validate (inputText_value (elements w))) = true)
      by (rewrite Hinput; vm_compute; reflexivity).
    destruct (straight_run w key random enc Hidle Hvalid)
      as (w' & E & _ & _ & _ & _ & _ & Hout).
    rewrite Hinput in E.
    exists w'. eexists. exists (map random (seq 0 12) ++ enc).
    split; [exact E|].
    split; [right; right; left; reflexivity|].
    split; [vm_compute; reflexivity|].
    split; [rewrite Hout; apply decode_bytes_encode|].
    rewrite length_app, length_map, length_seq, Hlen. reflexivity.
Qed.

Lemma encoded_layout_witness :
  exists w' fx decoded,
    steps (initial (page (lit "Hello, World!")))
      [CallProcessEncryption;
       KeySettled 0 (Some (Key 7)) (fun _ => x2a);
       EncryptSettled 0 (Some (repeat xff 29))] = Some (w', fx)
    /\ decode_bytes (outputText_value (elements w')) = Some decoded
    /\ List.length decoded = 41%nat.
Proof.
  destruct (proj2 encoded_layout (initial (page (lit "Hello, World!")))
              (Key 7) (fun _ => x2a) (repeat xff 29)
              (conj eq_refl eq_refl) eq_refl eq_refl)
    as (w' & fx & decoded & E & _ & _ & D & L).
  exists w', fx, decoded. repeat split; assumption.
Defined.

(** *** Whitespace *)

Lemma whitespace_not_dangerous (c : N) :
  is_whitespace c = true -> c <> 0x0B -> c <> 0x0C -> dangerousChars c = false.
Proof.
  intros Hws H11 H12. destruct (dangerousChars c) eqn:E; [|reflexivity].
  apply dangerousChars_spec in E. unfold control_character in E.
  unfold is_whitespace in Hws.
  rewrite !orb_true_iff, andb_true_iff, !N.eqb_eq, !N.leb_le in Hws. lia.
Qed.

Lemma trimStart_whitespace (s : jsstring) :
  (forall c, In c s -> is_whitespace c = true) -> trimStart s = [].
Proof.
  induction s as [|c t IH]; intros H; [reflexivity|].
  change (trimStart (c :: t)) with (if is_whitespace c then trimStart t else c :: t).
  rewrite (H c (or_introl eq_refl)). apply IH. intros x Hx. apply H. now right.
Qed.

Lemma sanitize_whitespace (s : jsstring) :
  (forall c, In c s -> is_whitespace c = true) -> sanitize s = [].
Proof.
  intros H. unfold sanitize, trim. now rewrite (trimStart_whitespace s H).
Qed.

(** C9, as the code has it.  A non-empty input of at most 10000
    characters, all of them whitespace other than the vertical tab and the
    form feed, is valid and sanitizes to the empty string; the pipeline
    then encrypts no bytes, and with the 16-byte tag the provider returns
    the result decodes to 28 bytes. *)
Theorem whitespace_only_input (w : World) (key : CryptoKey)
    (random : nat -> byte) (encryptedData : bytes) :
  let input := inputText_value (elements w) in
  idle w ->
  input <> [] ->
  length input <= 10000 ->
  (forall c, In c input -> is_whitespace c = true /\ c <> 0x0B /\ c <> 0x0C) ->
  List.length encryptedData = 16%nat ->
  isValid (validate input) = true
  /\ sanitized (validate input) = []
  /\ exists w' fx decoded,
       steps w [CallProcessEncryption;
                KeySettled 0 (Some key) random;
                EncryptSettled 0 (Some encryptedData)] = Some (w', fx)
       /\ In (SubtleEncrypt key (map random (seq 0 12)) []) fx
       /\ decode_bytes (outputText_value (elements w')) = Some decoded
       /\ List.length decoded = 28%nat.
Proof.
  cbv zeta. intros Hidle Hne Hlen Hws Htag.
  assert (Hvalid : isValid (validate (inputText_value (elements w))) = true).
  { rewrite validate_isValid, !andb_true_iff, !negb_true_iff.
    rewrite N.eqb_neq, N.ltb_ge. repeat split.
    - unfold length. destruct (inputText_value (elements w)); [congruence|].
      cbn [List.length]. lia.
    - exact Hlen.
    - unfold test. destruct (existsb dangerousChars _) eqn:E; [|reflexivity].
      apply existsb_exists in E as (c & Hc & Hd).
      destruct (Hws c Hc) as (H1 & H2 & H3).
      now rewrite (whitespace_not_dangerous c H1 H2 H3) in Hd. }
  assert (Hsan : sanitize (inputText_value (elements w)) = []).
  { apply sanitize_whitespace. intros c Hc. now apply Hws. }
  split; [exact Hvalid|]. split; [exact Hsan|].
  destruct (straight_run w key random encryptedData Hidle Hvalid)
    as (w' & E & _ & _ & _ & _ & _ & Hout).
  rewrite Hsan in E. change (TextEncoder_encode []) with (@nil byte) in E.
  exists w'. eexists. exists (map random (seq 0 12) ++ encryptedData).
  split; [exact E|].
  split; [right; right; left; reflexivity|].
  split; [rewrite Hout; apply decode_bytes_encode|].
  rewrite length_app, length_map, length_seq, Htag. reflexivity.
Qed.

Lemma whitespace_only_input_witness :
  isValid (validate (lit " ")) = true
  /\ sanitized (validate (lit " ")) = []
  /\ exists w' fx decoded,
       steps (initial (page (lit " ")))
         [CallProcessEncryption;
          KeySettled 0 (Some (Key 7)) (fun _ => x2a);
          EncryptSettled 0 (Some (repeat xff 16))] = Some (w', fx)
       /\ decode_bytes (outputText_value (elements w')) = Some decoded
       /\ List.length decoded = 28%nat.
Proof.
  assert (Hne : lit " " <> []) by (vm_compute; discriminate).
  assert (Hlen : length (lit " ") <= 10000) by (vm_compute; discriminate).
  assert (Hws : forall c, In c (lit " ") ->
                  is_whitespace c = true /\ c <> 0x0B /\ c <> 0x0C).
  { intros c [<-|[]]. vm_compute. repeat split; discriminate. }
  destruct (whitespace_only_input (initial (page (lit " "))) (Key 7)
              (fun _ => x2a) (repeat xff 16)
              (conj eq_refl eq_refl) Hne Hlen Hws eq_refl)
    as (H1 & H2 & w' & fx & decoded & E & _ & D & L).
  split; [exact H1|]. split; [exact H2|].
  exists w', fx, decoded. repeat split; assumption.
Defined.

(** C9, as stated, fails: 10001 spaces are only whitespace and are
    rejected for their length, and a vertical tab, which [trim] counts as
    whitespace, is rejected as a control character. *)
Lemma whitespace_only_rejected :
  (forallb is_whitespace (repeat 0x20 (N.to_nat 10001)) = true
   /\ isValid (validate (repeat 0x20 (N.to_nat 10001))) = false)
  /\ (forallb is_whitespace [0x0B] = true
      /\ isValid (validate [0x0B]) = false).
Proof. vm_compute. repeat split; reflexivity. Qed.

(** *** The length limit *)

(** C10.  The limit of 10000 characters bears on the raw input: sanitizing
    multiplies the length by six at most, so a valid input sanitizes to
    60000 characters at most; 10000 double quotes are valid and sanitize to
    exactly 60000 characters, while 10001 spaces, which sanitize to
    nothing, are rejected; and the sanitized text is what the pipeline
    hands to encryption. *)
Theorem limit_on_raw_input :
  (forall input, length (sanitize input) <= 6 * length input)
  /\ (forall input,
        isValid (validate input) = true ->
        length (sanitized (validate input)) <= 60000)
  /\ (exists input,
        length input = 10000
        /\ isValid (validate input) = true
        /\ length (sanitized (validate input)) = 60000)
  /\ (exists input,
        length input = 10001
        /\ isValid (validate input) = false
        /\ length (sanitized (validate input)) = 0)
  /\ (forall w key random,
        idle w ->
        isValid (validate (inputText_value (elements w))) = true ->
        exists w',
          steps w [CallProcessEncryption; KeySettled 0 (Some key) random]
          = Some (w', [SubtleGenerateKey; GetRandomValues 12;
                       SubtleEncrypt key (map random (seq 0 12))
                         (TextEncoder_encode
                            (sanitized (validate (inputText_value (elements w)))))])).
Proof.
  split; [exact sanitize_length|]. split; [|split; [|split]].
  - intros input Hvalid. rewrite validate_sanitized.
    pose proof (sanitize_length input) as Hs.
    rewrite validate_isValid, !andb_true_iff, !negb_true_iff in Hvalid.
    destruct Hvalid as ((_ & Hlen) & _). apply N.ltb_ge in Hlen. lia.
  - exists (repeat 0x22 (N.to_nat 10000)). vm_compute. repeat split; reflexivity.
  - exists (repeat 0x20 (N.to_nat 10001)). vm_compute. repeat split; reflexivity.
  - intros w key random (Hidle & Hruns) Hvalid.
    destruct (call_valid w Hidle Hvalid)
      as (w1 & E1 & _ & _ & _ & R1 & _).
    rewrite Hruns in R1. cbn [app] in R1.
    assert (Hnth1 : nth_error (runs w1) 0
                    = Some (AwaitGenerateKey (now w)
                              (validate (inputText_value (elements w)))))
      by now rewrite R1.
    destruct (key_fulfilled w1 0 _ _ key random Hnth1) as (w2 & E2 & _).
    exists w2. cbn [steps]. rewrite E1, E2. reflexivity.
Qed.

End Pipeline.

(** * Further properties of the code *)

(** ** InputValidator: the reasons and the sanitized text *)

Section ValidatorMore.

Import InputValidator.

(** X1.  The reasons [validate] collects: an empty input has the one
    reason that it is empty; otherwise the length reason, if any, comes
    before the control-character reason, if any; never more than two. *)
Theorem validate_reasons (input : jsstring) :
  let control := if test dangerousChars input
                 then [lit "Input contains invalid control characters"] else [] in
  (length input = 0 -> errors (validate input) = [lit "Input cannot be empty"])
  /\ (0 < length input <= 10000 -> errors (validate input) = control)
  /\ (10000 < length input ->
      errors (validate input) = too_long_message input :: control)
  /\ (List.length (errors (validate input)) <= 2)%nat.
Proof.
  cbv zeta. rewrite validate_errors. repeat split.
  - intros H0. rewrite H0.
    destruct input; [reflexivity|]. unfold length in H0. cbn in H0. lia.
  - intros [Hpos Hle].
    destruct (N.eqb_spec (length input) 0) as [E|_]; [lia|].
    destruct (N.ltb_spec 10000 (length input)); [lia|]. reflexivity.
  - intros Hlong.
    destruct (N.eqb_spec (length input) 0) as [E|_]; [lia|].
    destruct (N.ltb_spec 10000 (length input)); [|lia]. reflexivity.
  - destruct (N.eqb_spec (length input) 0) as [E|_].
    + destruct (N.ltb_spec 10000 (length input)); [lia|].
      destruct (test dangerousChars input); cbn; lia.
    + destruct (10000 <? length input), (test dangerousChars input); cbn; lia.
Qed.

Lemma strip_control_clean (s : jsstring) (c : N) :
  In c (strip_control s) -> In c s /\ dangerousChars c = false.
Proof.
  induction s as [|x s IH]; [contradiction|].
  cbn [strip_control]. fold (dangerousChars x).
  destruct (dangerousChars x) eqn:E.
  - intros H. destruct (IH H). split; [now right|assumption].
  - intros [<-|H]; [split; [now left|assumption]|].
    destruct (IH H). split; [now right|assumption].
Qed.

Lemma escape_char_cases (x : N) :
  (x = 0x26 /\ escape_char x = [0x26; 0x61; 0x6D; 0x70; 0x3B])
  \/ (x = 0x3C /\ escape_char x = [0x26; 0x6C; 0x74; 0x3B])
  \/ (x = 0x3E /\ escape_char x = [0x26; 0x67; 0x74; 0x3B])
  \/ (x = 0x22 /\ escape_char x = [0x26; 0x71; 0x75; 0x6F; 0x74; 0x3B])
  \/ (x = 0x27 /\ escape_char x = [0x26; 0x23; 0x78; 0x32; 0x37; 0x3B])
  \/ (x <> 0x26 /\ x <> 0x3C /\ x <> 0x3E /\ x <> 0x22 /\ x <> 0x27
      /\ escape_char x = [x]).
Proof.
  unfold escape_char.
  destruct (N.eqb_spec x 0x26) as [->|H1]; [left; now split|].
  destruct (N.eqb_spec x 0x3C) as [->|H2]; [right; left; now split|].
  destruct (N.eqb_spec x 0x3E) as [->|H3]; [right; right; left; now split|].
  destruct (N.eqb_spec x 0x22) as [->|H4]; [right; right; right; left; now split|].
  destruct (N.eqb_spec x 0x27) as [->|H5];
    [right; right; right; right; left; now split|].
  repeat right. repeat split; assumption.
Qed.

(** X2.  The sanitized text holds none of [<], [>], the double quote and
    the apostrophe, and no control character. *)
Theorem sanitize_output_safe (input : jsstring) (c : N) :
  In c (sanitize input) ->
  c <> 0x3C /\ c <> 0x3E /\ c <> 0x22 /\ c <> 0x27 /\ ~ control_character c.
Proof.
  rewrite sanitize_one_pass. intros H.
  apply in_flat_map in H as (x & Hx & Hc).
  apply strip_control_clean in Hx as (_ & Hclean).
  assert (Hnc : ~ control_character x).
  { intros Hctl. apply dangerousChars_spec in Hctl. congruence. }
  unfold control_character in *.
  destruct (escape_char_cases x)
    as [(-> & E)|[(-> & E)|[(-> & E)|[(-> & E)|[(-> & E)|(H1 & H2 & H3 & H4 & H5 & E)]]]]];
    rewrite E in Hc; cbn [In] in Hc;
    repeat match goal with H : _ \/ _ |- _ => destruct H as [<-|H] end;
    try contradiction; repeat split; try lia; try discriminate.
Qed.

Lemma sanitize_output_safe_witness :
  0x61 <> 0x3C /\ 0x61 <> 0x3E /\ 0x61 <> 0x22 /\ 0x61 <> 0x27
  /\ ~ control_character 0x61.
Proof.
  apply (sanitize_output_safe (lit "<a>") 0x61). vm_compute. tauto.
Defined.

Lemma escape_char_inj (x y : N) (r1 r2 : jsstring) :
  escape_char x ++ r1 = escape_char y ++ r2 -> x = y /\ r1 = r2.
Proof.
  destruct (escape_char_cases x)
    as [(-> & E)|[(-> & E)|[(-> & E)|[(-> & E)|[(-> & E)|(H1 & H2 & H3 & H4 & H5 & E)]]]]];
  destruct (escape_char_cases y)
    as [(-> & F)|[(-> & F)|[(-> & F)|[(-> & F)|[(-> & F)|(G1 & G2 & G3 & G4 & G5 & F)]]]]];
  rewrite ?E, ?F; cbn [app]; intros H;
  try discriminate;
  try (injection H as H; subst; split; [reflexivity || congruence|assumption || reflexivity]);
  try (injection H; intros; subst; congruence).
Qed.

Lemma flat_map_escape_inj (s t : jsstring) :
  flat_map escape_char s = flat_map escape_char t -> s = t.
Proof.
  revert t. induction s as [|x s IH]; intros [|y t] H; cbn [flat_map] in H.
  - reflexivity.
  - destruct (escape_char_cases y)
      as [(-> & F)|[(-> & F)|[(-> & F)|[(-> & F)|[(-> & F)|(_ & _ & _ & _ & _ & F)]]]]];
      rewrite F in H; discriminate.
  - destruct (escape_char_cases x)
      as [(-> & F)|[(-> & F)|[(-> & F)|[(-> & F)|[(-> & F)|(_ & _ & _ & _ & _ & F)]]]]];
      rewrite F in H; discriminate.
  - apply escape_char_inj in H as [-> H]. f_equal. now apply IH.
Qed.

(** X3.  Escaping loses nothing: the five replacements together escape
    each character on its own, and two inputs have the same sanitized text
    only if they are the same after trimming and removing control
    characters. *)
Theorem sanitize_escaping_reversible (a b : jsstring) :
  sanitize a = flat_map escape_char (replace dangerousChars [] (trim a))
  /\ (sanitize a = sanitize b ->
      replace dangerousChars [] (trim a) = replace dangerousChars [] (trim b)).
Proof.
  rewrite !sanitize_one_pass, !replace_dangerousChars.
  split; [reflexivity|]. apply flat_map_escape_inj.
Qed.

(** X4.  A text without surrounding whitespace, control characters and
    the five escaped characters is sanitized to itself. *)
Theorem sanitize_plain_text (input : jsstring) :
  trim input = input ->
  (forall c, In c input ->
     ~ control_character c
     /\ c <> 0x26 /\ c <> 0x3C /\ c <> 0x3E /\ c <> 0x22 /\ c <> 0x27) ->
  sanitize input = input.
Proof.
  intros Htrim Hplain. rewrite sanitize_one_pass, Htrim. clear Htrim.
  induction input as [|c t IH]; [reflexivity|].
  destruct (Hplain c (or_introl eq_refl)) as (Hc & H1 & H2 & H3 & H4 & H5).
  cbn [strip_control]. fold (dangerousChars c).
  destruct (dangerousChars c) eqn:E;
    [apply dangerousChars_spec in E; contradiction|].
  cbn [flat_map].
  destruct (escape_char_cases c)
    as [(-> & _)|[(-> & _)|[(-> & _)|[(-> & _)|[(-> & _)|(_ & _ & _ & _ & _ & F)]]]]];
    try congruence.
  rewrite F.
  change (c :: flat_map escape_char (strip_control t) = c :: t).
  f_equal. apply IH.
  intros x Hx. apply Hplain. now right.
Qed.

Lemma sanitize_plain_text_witness :
  sanitize (lit "Hello, World!") = lit "Hello, World!".
Proof.
  apply sanitize_plain_text; [vm_compute; reflexivity|].
  intros c Hc. unfold control_character.
  vm_compute in Hc.
  repeat (destruct Hc as [<-|Hc]; [repeat split; try lia; discriminate|]).
  contradiction.
Defined.

End ValidatorMore.

(** ** The page: elements, flag and references *)

Section PageInvariants.

Import InputValidator EncryptionController.

Arguments validate : simpl never.
Arguments lit : simpl never.
Arguments length : simpl never.
Arguments TextEncoder_encode : simpl never.
Arguments base64_encode : simpl never.
Arguments fromCharCode : simpl never.
Arguments UIManager.validateInput : simpl never.
Arguments N.add : simpl never.
Arguments N.sub : simpl never.
Arguments N.ltb : simpl never.

(** A property of the page that holds when it is loaded and that every
    event keeps, in states satisfying the invariant, holds in every state
    the page reaches. *)
Lemma reachable_ind (P : World -> Prop) (e : Elements) :
  P (initial e) ->
  (forall w ev w' fx trace,
     invariant w trace -> P w -> step w ev = Some (w', fx) -> P w') ->
  forall evs w trace, steps (initial e) evs = Some (w, trace) -> P w.
Proof.
  intros Hinit Hstep evs.
  assert (H : forall w0 trace0 w fx,
             invariant w0 trace0 -> P w0 ->
             steps w0 evs = Some (w, fx) -> P w).
  { induction evs as [|ev evs IH]; intros w0 trace0 w fx Hinv H0 Hsteps.
    - injection Hsteps as <- _. exact H0.
    - cbn [steps] in Hsteps.
      destruct (step w0 ev) as [[w1 fx1]|] eqn:E1; [|discriminate].
      destruct (steps w1 evs) as [[w2 fx2]|] eqn:E2; [|discriminate].
      injection Hsteps as <- _.
      apply (IH w1 (trace0 ++ fx1) w2 fx2); [|eauto|exact E2].
      now apply step_invariant with (w := w0) (ev := ev). }
  intros w trace Hsteps.
  apply (H (initial e) [] w trace (initial_invariant e) Hinit Hsteps).
Qed.

(** What one event does to the elements and to the flag. *)
Lemma clearAll_elements (w : World) :
  elements (fst (clearAll w)) = cleared (elements w).
Proof. reflexivity. Qed.

Lemma step_cases (w w' : World) (ev : Event) (fx : list Effect) :
  step w ev = Some (w', fx) ->
  let e := elements w in
  (elements w' = e /\ isProcessing (app w') = isProcessing (app w))
  \/ (isValid (validate (inputText_value e)) = true
      /\ elements w' = UIManager.showProcessing e
      /\ isProcessing (app w') = true)
  \/ (elements w' = UIManager.hideProcessing
                     (UIManager.showError generic_message
                        (UIManager.showProcessing e))
      /\ isProcessing (app w') = false)
  \/ (elements w' = UIManager.hideProcessing
                     (UIManager.showError generic_message e)
      /\ isProcessing (app w') = false)
  \/ (exists i startTime validation key iv encryptedData,
        nth_error (runs w) i = Some (AwaitEncrypt startTime validation key iv)
        /\ elements w' = UIManager.hideProcessing
                          (UIManager.displayResult
                             (base64_encode (fromCharCode (iv ++ encryptedData))) e)
        /\ isProcessing (app w') = false)
  \/ (exists text,
        elements w' = UIManager.onInput (set_inputText_value text e)
        /\ isProcessing (app w') = isProcessing (app w))
  \/ (elements w' = cleared e
      /\ isProcessing (app w') = isProcessing (app w)).
Proof.
  intros Hstep. cbv zeta.
  destruct ev as [text| |i settled random|i settled| | |ms].
  - injection Hstep as <- _. do 5 right. left. exists text. split; reflexivity.
  - assert (Ew : processEncryption w = (w', fx)).
    { change (Some (processEncryption w) = Some (w', fx)) in Hstep.
      now injection Hstep. }
    assert (E1 : w' = fst (processEncryption w)) by now rewrite Ew.
    destruct (isProcessing (app w)) eqn:Hp.
    + left. rewrite E1. unfold processEncryption. rewrite Hp.
      split; [reflexivity|exact Hp].
    + destruct (isValid (validate (inputText_value (elements w)))) eqn:Hv.
      * right. left. split; [reflexivity|].
        rewrite E1. unfold processEncryption. rewrite Hp.
        unfold try_from_start.
        cbn [elements ui set_elements set_isProcessing set_app
          UIManager.showProcessing UIManager.clearMessages inputText_value
          set_copyStatus_textContent set_successMessage_hidden
          set_errorMessage_hidden set_statusArea_hidden set_encryptBtn_disabled
          set_processingIndicator_hidden].
        rewrite Hv. split; reflexivity.
      * right. right. left.
        rewrite E1. unfold processEncryption. rewrite Hp.
        unfold try_from_start.
        cbn [elements ui set_elements set_isProcessing set_app
          UIManager.showProcessing UIManager.clearMessages inputText_value
          set_copyStatus_textContent set_successMessage_hidden
          set_errorMessage_hidden set_statusArea_hidden set_encryptBtn_disabled
          set_processingIndicator_hidden].
        rewrite Hv. split; reflexivity.
  - unfold step in Hstep.
    destruct (nth_error (runs w) i) as [[start v|]|]; try discriminate.
    destruct settled as [key|]; cbn in Hstep; injection Hstep as <- _.
    + left. split; reflexivity.
    + do 3 right. left. split; reflexivity.
  - unfold step in Hstep.
    destruct (nth_error (runs w) i) as [[|start v key iv]|] eqn:Hnth;
      try discriminate.
    destruct settled as [enc|].
    + unfold try_from_encrypted in Hstep.
      cbn [CryptographicEngine.encryptText_resume] in Hstep.
      rewrite formatOutput_value in Hstep. cbn in Hstep.
      do 4 right. left. exists i, start, v, key, iv, enc.
      split; [exact Hnth|].
      destruct (2000 <? now w - start); cbn in Hstep; injection Hstep as <- _;
        split; reflexivity.
    + cbn in Hstep. injection Hstep as <- _.
      do 3 right. left. split; reflexivity.
  - unfold step in Hstep. destruct (timers w) as [|due rest]; [discriminate|].
    destruct (due <=? now w); [|discriminate].
    injection Hstep as <- _. left. split; reflexivity.
  - injection Hstep as <- _. do 6 right.
    split; [apply clearAll_elements|reflexivity].
  - injection Hstep as <- _. left. split; reflexivity.
Qed.


(** *** What the methods of UIManager leave alone *)

Lemma updateCharacterCount_frame (e : Elements) :
  let e' := UIManager.updateCharacterCount e in
  inputText_value e' = inputText_value e
  /\ outputText_value e' = outputText_value e
  /\ encryptBtn_disabled e' = encryptBtn_disabled e
  /\ copyBtn_disabled e' = copyBtn_disabled e
  /\ statusArea_hidden e' = statusArea_hidden e
  /\ errorMessage_hidden e' = errorMessage_hidden e
  /\ errorText_textContent e' = errorText_textContent e
  /\ successMessage_hidden e' = successMessage_hidden e
  /\ processingIndicator_hidden e' = processingIndicator_hidden e
  /\ charCount_textContent e'
     = of_number (length (inputText_value e)) ++ lit " / 10,000 characters".
Proof.
  cbv zeta. unfold UIManager.updateCharacterCount. cbn.
  destruct (9000 <? length (inputText_value e));
    [|destruct (7000 <? length (inputText_value e))];
    cbn; repeat split; reflexivity.
Qed.

Lemma validateInput_encryptBtn (e : Elements) :
  encryptBtn_disabled (UIManager.validateInput e)
  = negb (isValid (validate (inputText_value e))).
Proof.
  unfold UIManager.validateInput.
  destruct (length (inputText_value e) =? 0) eqn:E0.
  - rewrite validate_isValid, E0. reflexivity.
  - destruct (isValid (validate (inputText_value e))); reflexivity.
Qed.

Ltac past_validateInput :=
  unfold UIManager.hideProcessing, UIManager.onInput;
  repeat match goal with
  | |- context [UIManager.validateInput ?x] =>
      let F := fresh "F" in
      pose proof (validateInput_frame x) as F; cbv zeta in F;
      let F1 := fresh in let F2 := fresh in let F3 := fresh in
      let F4 := fresh in let F5 := fresh in let F6 := fresh in
      let F7 := fresh in let F8 := fresh in let F9 := fresh in
      destruct F as (F1 & F2 & F3 & F4 & F5 & F6 & F7 & F8 & F9);
      cbn;
      rewrite ?validateInput_encryptBtn,
        ?F1, ?F2, ?F3, ?F4, ?F5, ?F6, ?F7, ?F8, ?F9;
      clear F1 F2 F3 F4 F5 F6 F7 F8 F9
  end.

Ltac past_updateCharacterCount :=
  repeat match goal with
  | |- context [UIManager.updateCharacterCount ?x] =>
      let F := fresh "F" in
      pose proof (updateCharacterCount_frame x) as F; cbv zeta in F;
      let F1 := fresh in let F2 := fresh in let F3 := fresh in
      let F4 := fresh in let F5 := fresh in let F6 := fresh in
      let F7 := fresh in let F8 := fresh in let F9 := fresh in
      let F10 := fresh in
      destruct F as (F1 & F2 & F3 & F4 & F5 & F6 & F7 & F8 & F9 & F10);
      rewrite ?F1, ?F2, ?F3, ?F4, ?F5, ?F6, ?F7, ?F8, ?F9, ?F10;
      clear F1 F2 F3 F4 F5 F6 F7 F8 F9 F10
  end.

(** Read a property of the elements through the calls of one event. *)
Ltac read_elements :=
  cbn; past_validateInput; cbn; past_updateCharacterCount; cbn.

(** X5.  When the user edits the text, the listener leaves the button
    enabled exactly for a valid text, shows the length in the counter and
    hides the messages; the state of the application is not touched. *)
Theorem input_listener (w : World) (text : jsstring) :
  exists w',
    step w (UserInput text) = Some (w', [])
    /\ inputText_value (elements w') = text
    /\ encryptBtn_disabled (elements w') = negb (isValid (validate text))
    /\ charCount_textContent (elements w')
       = of_number (length text) ++ lit " / 10,000 characters"
    /\ statusArea_hidden (elements w') = true
    /\ errorMessage_hidden (elements w') = true
    /\ successMessage_hidden (elements w') = true
    /\ outputText_value (elements w') = outputText_value (elements w)
    /\ app w' = app w /\ runs w' = runs w /\ timers w' = timers w.
Proof.
  eexists. split; [reflexivity|].
  repeat split; read_elements; try reflexivity.
  unfold UIManager.validateInput.
  destruct (length _ =? 0); [|destruct (isValid _)]; cbn;
    past_updateCharacterCount; reflexivity.
Qed.

(** *** The fields after each method of UIManager *)

Lemma showProcessing_fields (e : Elements) :
  inputText_value (UIManager.showProcessing e) = inputText_value e
  /\ outputText_value (UIManager.showProcessing e) = outputText_value e
  /\ encryptBtn_disabled (UIManager.showProcessing e) = true
  /\ copyBtn_disabled (UIManager.showProcessing e) = copyBtn_disabled e
  /\ statusArea_hidden (UIManager.showProcessing e) = true
  /\ errorMessage_hidden (UIManager.showProcessing e) = true
  /\ errorText_textContent (UIManager.showProcessing e) = errorText_textContent e
  /\ successMessage_hidden (UIManager.showProcessing e) = true
  /\ processingIndicator_hidden (UIManager.showProcessing e) = false.
Proof. repeat split; reflexivity. Qed.

Lemma showError_fields (message : jsstring) (e : Elements) :
  inputText_value (UIManager.showError message e) = inputText_value e
  /\ outputText_value (UIManager.showError message e) = outputText_value e
  /\ encryptBtn_disabled (UIManager.showError message e) = encryptBtn_disabled e
  /\ copyBtn_disabled (UIManager.showError message e) = copyBtn_disabled e
  /\ statusArea_hidden (UIManager.showError message e) = false
  /\ errorMessage_hidden (UIManager.showError message e) = false
  /\ errorText_textContent (UIManager.showError message e) = message
  /\ successMessage_hidden (UIManager.showError message e) = true
  /\ processingIndicator_hidden (UIManager.showError message e) = processingIndicator_hidden e.
Proof. repeat split; reflexivity. Qed.

Lemma showSuccess_fields (message : jsstring) (e : Elements) :
  inputText_value (UIManager.showSuccess message e) = inputText_value e
  /\ outputText_value (UIManager.showSuccess message e) = outputText_value e
  /\ encryptBtn_disabled (UIManager.showSuccess message e) = encryptBtn_disabled e
  /\ copyBtn_disabled (UIManager.showSuccess message e) = copyBtn_disabled e
  /\ statusArea_hidden (UIManager.showSuccess message e) = false
  /\ errorMessage_hidden (UIManager.showSuccess message e) = true
  /\ errorText_textContent (UIManager.showSuccess message e) = errorText_textContent e
  /\ successMessage_hidden (UIManager.showSuccess message e) = false
  /\ processingIndicator_hidden (UIManager.showSuccess message e) = processingIndicator_hidden e.
Proof. repeat split; reflexivity. Qed.

Lemma displayResult_fields (text : jsstring) (e : Elements) :
  inputText_value (UIManager.displayResult text e) = inputText_value e
  /\ outputText_value (UIManager.displayResult text e) = text
  /\ encryptBtn_disabled (UIManager.displayResult text e) = encryptBtn_disabled e
  /\ copyBtn_disabled (UIManager.displayResult text e) = false
  /\ statusArea_hidden (UIManager.displayResult text e) = false
  /\ errorMessage_hidden (UIManager.displayResult text e) = true
  /\ errorText_textContent (UIManager.displayResult text e) = errorText_textContent e
  /\ successMessage_hidden (UIManager.displayResult text e) = false
  /\ processingIndicator_hidden (UIManager.displayResult text e) = processingIndicator_hidden e.
Proof. repeat split; reflexivity. Qed.

Lemma clearMessages_fields (e : Elements) :
  inputText_value (UIManager.clearMessages e) = inputText_value e
  /\ outputText_value (UIManager.clearMessages e) = outputText_value e
  /\ encryptBtn_disabled (UIManager.clearMessages e) = encryptBtn_disabled e
  /\ copyBtn_disabled (UIManager.clearMessages e) = copyBtn_disabled e
  /\ statusArea_hidden (UIManager.clearMessages e) = true
  /\ errorMessage_hidden (UIManager.clearMessages e) = true
  /\ errorText_textContent (UIManager.clearMessages e) = errorText_textContent e
  /\ successMessage_hidden (UIManager.clearMessages e) = true
  /\ processingIndicator_hidden (UIManager.clearMessages e) = processingIndicator_hidden e.
Proof. repeat split; reflexivity. Qed.

Lemma set_inputText_fields (text : jsstring) (e : Elements) :
  inputText_value (set_inputText_value text e) = text
  /\ outputText_value (set_inputText_value text e) = outputText_value e
  /\ encryptBtn_disabled (set_inputText_value text e) = encryptBtn_disabled e
  /\ copyBtn_disabled (set_inputText_value text e) = copyBtn_disabled e
  /\ statusArea_hidden (set_inputText_value text e) = statusArea_hidden e
  /\ errorMessage_hidden (set_inputText_value text e) = errorMessage_hidden e
  /\ errorText_textContent (set_inputText_value text e) = errorText_textContent e
  /\ successMessage_hidden (set_inputText_value text e) = successMessage_hidden e
  /\ processingIndicator_hidden (set_inputText_value text e) = processingIndicator_hidden e.
Proof. repeat split; reflexivity. Qed.

Lemma set_outputText_fields (text : jsstring) (e : Elements) :
  inputText_value (set_outputText_value text e) = inputText_value e
  /\ outputText_value (set_outputText_value text e) = text
  /\ encryptBtn_disabled (set_outputText_value text e) = encryptBtn_disabled e
  /\ copyBtn_disabled (set_outputText_value text e) = copyBtn_disabled e
  /\ statusArea_hidden (set_outputText_value text e) = statusArea_hidden e
  /\ errorMessage_hidden (set_outputText_value text e) = errorMessage_hidden e
  /\ errorText_textContent (set_outputText_value text e) = errorText_textContent e
  /\ successMessage_hidden (set_outputText_value text e) = successMessage_hidden e
  /\ processingIndicator_hidden (set_outputText_value text e) = processingIndicator_hidden e.
Proof. repeat split; reflexivity. Qed.

Lemma set_copyBtn_fields (b : bool) (e : Elements) :
  inputText_value (set_copyBtn_disabled b e) = inputText_value e
  /\ outputText_value (set_copyBtn_disabled b e) = outputText_value e
  /\ encryptBtn_disabled (set_copyBtn_disabled b e) = encryptBtn_disabled e
  /\ copyBtn_disabled (set_copyBtn_disabled b e) = b
  /\ statusArea_hidden (set_copyBtn_disabled b e) = statusArea_hidden e
  /\ errorMessage_hidden (set_copyBtn_disabled b e) = errorMessage_hidden e
  /\ errorText_textContent (set_copyBtn_disabled b e) = errorText_textContent e
  /\ successMessage_hidden (set_copyBtn_disabled b e) = successMessage_hidden e
  /\ processingIndicator_hidden (set_copyBtn_disabled b e) = processingIndicator_hidden e.
Proof. repeat split; reflexivity. Qed.

Lemma set_processingIndicator_fields (b : bool) (e : Elements) :
  inputText_value (set_processingIndicator_hidden b e) = inputText_value e
  /\ outputText_value (set_processingIndicator_hidden b e) = outputText_value e
  /\ encryptBtn_disabled (set_processingIndicator_hidden b e) = encryptBtn_disabled e
  /\ copyBtn_disabled (set_processingIndicator_hidden b e) = copyBtn_disabled e
  /\ statusArea_hidden (set_processingIndicator_hidden b e) = statusArea_hidden e
  /\ errorMessage_hidden (set_processingIndicator_hidden b e) = errorMessage_hidden e
  /\ errorText_textContent (set_processingIndicator_hidden b e) = errorText_textContent e
  /\ successMessage_hidden (set_processingIndicator_hidden b e) = successMessage_hidden e
  /\ processingIndicator_hidden (set_processingIndicator_hidden b e) = b.
Proof. repeat split; reflexivity. Qed.

Lemma validateInput_fields (e : Elements) :
  inputText_value (UIManager.validateInput e) = inputText_value e
  /\ outputText_value (UIManager.validateInput e) = outputText_value e
  /\ encryptBtn_disabled (UIManager.validateInput e) = negb (isValid (validate (inputText_value e)))
  /\ copyBtn_disabled (UIManager.validateInput e) = copyBtn_disabled e
  /\ statusArea_hidden (UIManager.validateInput e) = statusArea_hidden e
  /\ errorMessage_hidden (UIManager.validateInput e) = errorMessage_hidden e
  /\ errorText_textContent (UIManager.validateInput e) = errorText_textContent e
  /\ successMessage_hidden (UIManager.validateInput e) = successMessage_hidden e
  /\ processingIndicator_hidden (UIManager.validateInput e) = processingIndicator_hidden e.
Proof.
  pose proof (validateInput_frame e) as F. cbv zeta in F.
  destruct F as (F1 & F2 & F3 & F4 & F5 & F6 & F7 & F8 & F9).
  rewrite validateInput_encryptBtn. repeat split; assumption.
Qed.

Lemma updateCharacterCount_fields (e : Elements) :
  inputText_value (UIManager.updateCharacterCount e) = inputText_value e
  /\ outputText_value (UIManager.updateCharacterCount e) = outputText_value e
  /\ encryptBtn_disabled (UIManager.updateCharacterCount e) = encryptBtn_disabled e
  /\ copyBtn_disabled (UIManager.updateCharacterCount e) = copyBtn_disabled e
  /\ statusArea_hidden (UIManager.updateCharacterCount e) = statusArea_hidden e
  /\ errorMessage_hidden (UIManager.updateCharacterCount e) = errorMessage_hidden e
  /\ errorText_textContent (UIManager.updateCharacterCount e) = errorText_textContent e
  /\ successMessage_hidden (UIManager.updateCharacterCount e) = successMessage_hidden e
  /\ processingIndicator_hidden (UIManager.updateCharacterCount e) = processingIndicator_hidden e.
Proof.
  pose proof (updateCharacterCount_frame e) as F. cbv zeta in F.
  destruct F as (F1 & F2 & F3 & F4 & F5 & F6 & F7 & F8 & F9 & _).
  repeat split; assumption.
Qed.

Ltac frame_with H :=
  let F1 := fresh in let F2 := fresh in let F3 := fresh in
  let F4 := fresh in let F5 := fresh in let F6 := fresh in
  let F7 := fresh in let F8 := fresh in let F9 := fresh in
  destruct H as (F1 & F2 & F3 & F4 & F5 & F6 & F7 & F8 & F9);
  progress (rewrite ?F1, ?F2, ?F3, ?F4, ?F5, ?F6, ?F7, ?F8, ?F9);
  clear F1 F2 F3 F4 F5 F6 F7 F8 F9.

(** Read a property of the elements through the calls of one event, by
    rewriting. *)
Ltac read_fields :=
  unfold UIManager.hideProcessing, UIManager.onInput, UIManager.initialize,
    cleared;
  repeat match goal with
  | |- context [UIManager.showProcessing ?x] => frame_with (showProcessing_fields x)
  | |- context [UIManager.showError ?m ?x] => frame_with (showError_fields m x)
  | |- context [UIManager.showSuccess ?m ?x] => frame_with (showSuccess_fields m x)
  | |- context [UIManager.displayResult ?m ?x] => frame_with (displayResult_fields m x)
  | |- context [UIManager.clearMessages ?x] => frame_with (clearMessages_fields x)
  | |- context [UIManager.validateInput ?x] => frame_with (validateInput_fields x)
  | |- context [UIManager.updateCharacterCount ?x] =>
      frame_with (updateCharacterCount_fields x)
  | |- context [set_inputText_value ?m ?x] => frame_with (set_inputText_fields m x)
  | |- context [set_outputText_value ?m ?x] => frame_with (set_outputText_fields m x)
  | |- context [set_copyBtn_disabled ?m ?x] => frame_with (set_copyBtn_fields m x)
  | |- context [set_processingIndicator_hidden ?m ?x] =>
      frame_with (set_processingIndicator_fields m x)
  end.

(** *** Invariants of the elements *)

Lemma step_button (w w' : World) (ev : Event) (fx : list Effect) :
  step w ev = Some (w', fx) ->
  (inputText_value (elements w') = inputText_value (elements w)
   /\ encryptBtn_disabled (elements w') = encryptBtn_disabled (elements w))
  \/ encryptBtn_disabled (elements w') = true
  \/ encryptBtn_disabled (elements w')
     = negb (isValid (validate (inputText_value (elements w')))).
Proof.
  intros Hstep.
  destruct (step_cases w w' ev fx Hstep)
    as [(E & _)|[(_ & E & _)|[(E & _)|[(E & _)|[(i & st & v & k & iv & enc & _ & E & _)
       |[(text & E & _)|(E & _)]]]]]]; rewrite E.
  - left. split; reflexivity.
  - right. left. read_fields. reflexivity.
  - right. right. read_fields. reflexivity.
  - right. right. read_fields. reflexivity.
  - right. right. read_fields. reflexivity.
  - right. right. read_fields. reflexivity.
  - right. right. read_fields. reflexivity.
Qed.

(** X6.  In every state the page reaches, an enabled encrypt button means
    a valid text: a call of [processEncryption] made then is either turned
    away by the guard or goes on to key generation; it never fails
    validation. *)
Theorem enabled_button_valid_text (e : Elements) (evs : list Event)
    (w : World) (trace : list Effect) :
  steps (initial e) evs = Some (w, trace) ->
  encryptBtn_disabled (elements w) = false ->
  isValid (validate (inputText_value (elements w))) = true
  /\ exists w' fx,
       step w CallProcessEncryption = Some (w', fx)
       /\ (fx = [] \/ fx = [SubtleGenerateKey]).
Proof.
  intros Hreach Hbtn.
  assert (Hvalid : isValid (validate (inputText_value (elements w))) = true).
  { revert Hbtn.
    apply (reachable_ind
             (fun w => encryptBtn_disabled (elements w) = false ->
                       isValid (validate (inputText_value (elements w))) = true)
             e) with (evs := evs) (trace := trace); [| |exact Hreach].
    - unfold initial. cbn [elements]. read_fields.
      intros H. now apply negb_false_iff in H.
    - intros w0 ev w1 fx tr _ IH Hstep.
      destruct (step_button w0 w1 ev fx Hstep) as [(Ei & Eb)|[Eb|Eb]];
        rewrite Eb; [rewrite Ei; exact IH|discriminate|].
      intros H. now apply negb_false_iff in H. }
  split; [exact Hvalid|].
  destruct (isProcessing (app w)) eqn:Hp.
  - exists w, []. split; [now apply call_rejected|now left].
  - destruct (call_valid w Hp Hvalid) as (w' & E & _).
    exists w', [SubtleGenerateKey]. split; [exact E|now right].
Qed.

Lemma enabled_button_valid_text_witness :
  let w := after (page []) [UserInput (lit "abc")] in
  isValid (validate (inputText_value (elements w))) = true.
Proof.
  cbv zeta.
  assert (Hreach : steps (initial (page [])) [UserInput (lit "abc")]
                   = Some (after (page []) [UserInput (lit "abc")],
                           produced (page []) [UserInput (lit "abc")]))
    by (vm_compute; reflexivity).
  assert (Hbtn : encryptBtn_disabled
                   (elements (after (page []) [UserInput (lit "abc")])) = false)
    by (vm_compute; reflexivity).
  exact (proj1 (enabled_button_valid_text _ _ _ _ Hreach Hbtn)).
Defined.

(** X7.  On a page loaded with at most one of the two messages showing,
    the error and the success message are never shown together, and
    whichever shows, the status area shows. *)
Theorem one_message_at_a_time (e : Elements) (evs : list Event) (w : World)
    (trace : list Effect) :
  errorMessage_hidden e = true ->
  successMessage_hidden e = true ->
  steps (initial e) evs = Some (w, trace) ->
  (errorMessage_hidden (elements w) = true
   \/ successMessage_hidden (elements w) = true)
  /\ (statusArea_hidden (elements w) = true ->
      errorMessage_hidden (elements w) = true
      /\ successMessage_hidden (elements w) = true).
Proof.
  intros He Hs Hreach.
  assert (H : (errorMessage_hidden (elements w) = true
               /\ successMessage_hidden (elements w) = true)
              \/ (statusArea_hidden (elements w) = false
                  /\ errorMessage_hidden (elements w)
                     = negb (successMessage_hidden (elements w)))).
  { apply (reachable_ind
             (fun w => (errorMessage_hidden (elements w) = true
                        /\ successMessage_hidden (elements w) = true)
                       \/ (statusArea_hidden (elements w) = false
                           /\ errorMessage_hidden (elements w)
                              = negb (successMessage_hidden (elements w))))
             e) with (evs := evs) (trace := trace); [| |exact Hreach].
    - left. unfold initial. cbn [elements]. read_fields. now split.
    - intros w0 ev w1 fx tr _ IH Hstep.
      destruct (step_cases w0 w1 ev fx Hstep)
        as [(E & _)|[(_ & E & _)|[(E & _)|[(E & _)
           |[(i & st & v & k & iv & enc & _ & E & _)|[(text & E & _)|(E & _)]]]]]];
        rewrite E; try exact IH; read_fields;
        try (left; split; reflexivity); right; split; reflexivity. }
  destruct H as [(H1 & H2)|(H1 & H2)].
  - split; [now left|]. now split.
  - split; [|congruence].
    destruct (successMessage_hidden (elements w)); [now right|now left].
Qed.

Lemma one_message_at_a_time_witness :
  let w := after (page []) [CallProcessEncryption; ClickClear] in
  errorMessage_hidden (elements w) = true
  \/ successMessage_hidden (elements w) = true.
Proof.
  cbv zeta.
  assert (Hreach : steps (initial (page [])) [CallProcessEncryption; ClickClear]
                   = Some (after (page []) [CallProcessEncryption; ClickClear],
                           produced (page []) [CallProcessEncryption; ClickClear]))
    by (vm_compute; reflexivity).
  exact (proj1 (one_message_at_a_time (page []) _ _ _ eq_refl eq_refl Hreach)).
Defined.

(** X8.  On a page loaded with the indicator hidden, the processing
    indicator shows exactly while the single-flight flag is set. *)
Theorem indicator_follows_flag (e : Elements) (evs : list Event) (w : World)
    (trace : list Effect) :
  processingIndicator_hidden e = true ->
  steps (initial e) evs = Some (w, trace) ->
  processingIndicator_hidden (elements w) = negb (isProcessing (app w)).
Proof.
  intros He Hreach.
  apply (reachable_ind
           (fun w => processingIndicator_hidden (elements w)
                     = negb (isProcessing (app w)))
           e) with (evs := evs) (trace := trace); [| |exact Hreach].
  - unfold initial. cbn [elements app isProcessing]. read_fields. exact He.
  - intros w0 ev w1 fx tr _ IH Hstep.
    destruct (step_cases w0 w1 ev fx Hstep)
      as [(E & P)|[(_ & E & P)|[(E & P)|[(E & P)
         |[(i & st & v & k & iv & enc & _ & E & P)|[(text & E & P)|(E & P)]]]]]];
      rewrite E, P; read_fields; try exact IH; reflexivity.
Qed.

Lemma indicator_follows_flag_witness :
  let w := after (page (lit "a")) [CallProcessEncryption] in
  processingIndicator_hidden (elements w) = negb (isProcessing (app w)).
Proof.
  cbv zeta.
  assert (Hreach : steps (initial (page (lit "a"))) [CallProcessEncryption]
                   = Some (after (page (lit "a")) [CallProcessEncryption],
                           produced (page (lit "a")) [CallProcessEncryption]))
    by (vm_compute; reflexivity).
  exact (indicator_follows_flag (page (lit "a")) _ _ _ eq_refl Hreach).
Defined.

(** X9.  No event of the pipeline puts anything but the fixed message in
    the error display: after any step the error text is what it was or
    "Encryption failed. Please try again.". *)
Theorem error_text_is_generic (w w' : World) (ev : Event) (fx : list Effect) :
  step w ev = Some (w', fx) ->
  errorText_textContent (elements w') = errorText_textContent (elements w)
  \/ errorText_textContent (elements w')
     = lit "Encryption failed. Please try again.".
Proof.
  intros Hstep.
  destruct (step_cases w w' ev fx Hstep)
    as [(E & _)|[(_ & E & _)|[(E & _)|[(E & _)
       |[(i & st & v & k & iv & enc & _ & E & _)|[(text & E & _)|(E & _)]]]]]];
    rewrite E; read_fields; try (left; reflexivity); right; reflexivity.
Qed.

Lemma error_text_is_generic_witness :
  let w := initial (page []) in
  let w' := fst (processEncryption w) in
  errorText_textContent (elements w') = errorText_textContent (elements w)
  \/ errorText_textContent (elements w')
     = lit "Encryption failed. Please try again.".
Proof.
  cbv zeta.
  assert (Hstep : step (initial (page [])) CallProcessEncryption
                  = Some (fst (processEncryption (initial (page []))),
                          snd (processEncryption (initial (page [])))))
    by (vm_compute; reflexivity).
  exact (error_text_is_generic _ _ _ _ Hstep).
Defined.

(** X10.  Editing the text while a call is under way enables the button
    again when the text is valid; the flag stays set, and a call made
    through the button is turned away by the guard. *)
Theorem typing_while_processing (w : World) (text : jsstring) :
  isProcessing (app w) = true ->
  isValid (validate text) = true ->
  exists w',
    step w (UserInput text) = Some (w', [])
    /\ encryptBtn_disabled (elements w') = false
    /\ isProcessing (app w') = true
    /\ runs w' = runs w
    /\ step w' CallProcessEncryption = Some (w', []).
Proof.
  intros Hp Hv. eexists. split; [reflexivity|].
  assert (Hp' : isProcessing
                  (app (ui UIManager.onInput (ui (set_inputText_value text) w)))
                = true) by exact Hp.
  split; [|split; [exact Hp'|split; [reflexivity|now apply call_rejected]]].
  cbn [elements ui set_elements]. read_fields. now rewrite Hv.
Qed.

Lemma typing_while_processing_witness :
  let w := after (page (lit "a")) [CallProcessEncryption] in
  exists w',
    step w (UserInput (lit "b")) = Some (w', [])
    /\ encryptBtn_disabled (elements w') = false
    /\ isProcessing (app w') = true.
Proof.
  cbv zeta.
  assert (Hp : isProcessing
                 (app (after (page (lit "a")) [CallProcessEncryption])) = true)
    by (vm_compute; reflexivity).
  assert (Hv : isValid (validate (lit "b")) = true) by (vm_compute; reflexivity).
  destruct (typing_while_processing _ _ Hp Hv) as (w' & E & H1 & H2 & _).
  exists w'. repeat split; assumption.
Defined.

(** X11.  On a page loaded with the copy button disabled, whenever the
    copy button is enabled the output holds an encoded result: it decodes,
    to at least the 12 bytes of an IV. *)
Theorem copy_button_has_result (e : Elements) (evs : list Event) (w : World)
    (trace : list Effect) :
  copyBtn_disabled e = true ->
  steps (initial e) evs = Some (w, trace) ->
  copyBtn_disabled (elements w) = false ->
  exists decoded,
    decode_bytes (outputText_value (elements w)) = Some decoded
    /\ (12 <= List.length decoded)%nat.
Proof.
  intros He Hreach.
  apply (reachable_ind
           (fun w => copyBtn_disabled (elements w) = false ->
                     exists decoded,
                       decode_bytes (outputText_value (elements w)) = Some decoded
                       /\ (12 <= List.length decoded)%nat)
           e) with (evs := evs) (trace := trace); [| |exact Hreach].
  - unfold initial. cbn [elements]. read_fields. congruence.
  - intros w0 ev w1 fx tr (_ & _ & Hok) IH Hstep.
    destruct (step_cases w0 w1 ev fx Hstep)
      as [(E & _)|[(_ & E & _)|[(E & _)|[(E & _)
         |[(i & st & v & k & iv & enc & Hnth & E & _)|[(text & E & _)|(E & _)]]]]]];
      rewrite E; read_fields; try exact IH; try discriminate.
    intros _. exists (iv ++ enc). split; [apply decode_bytes_encode|].
    assert (Hrun : run_ok tr (AwaitEncrypt st v k iv)).
    { apply (proj1 (Forall_forall _ _) Hok). eapply nth_error_In, Hnth. }
    destruct Hrun as (_ & Hiv & _). rewrite length_app. lia.
Qed.

Lemma copy_button_has_result_witness :
  let w := after (page (lit "a"))
             [CallProcessEncryption;
              KeySettled 0 (Some (Key 1)) (fun _ => x00);
              EncryptSettled 0 (Some (repeat x00 17))] in
  exists decoded,
    decode_bytes (outputText_value (elements w)) = Some decoded
    /\ (12 <= List.length decoded)%nat.
Proof.
  cbv zeta.
  assert (Hreach :
    steps (initial (page (lit "a")))
      [CallProcessEncryption; KeySettled 0 (Some (Key 1)) (fun _ => x00);
       EncryptSettled 0 (Some (repeat x00 17))]
    = Some (after (page (lit "a"))
              [CallProcessEncryption; KeySettled 0 (Some (Key 1)) (fun _ => x00);
               EncryptSettled 0 (Some (repeat x00 17))],
            produced (page (lit "a"))
              [CallProcessEncryption; KeySettled 0 (Some (Key 1)) (fun _ => x00);
               EncryptSettled 0 (Some (repeat x00 17))]))
    by (vm_compute; reflexivity).
  assert (Hbtn : copyBtn_disabled
    (elements (after (page (lit "a"))
       [CallProcessEncryption; KeySettled 0 (Some (Key 1)) (fun _ => x00);
        EncryptSettled 0 (Some (repeat x00 17))])) = false)
    by (vm_compute; reflexivity).
  exact (copy_button_has_result (page (lit "a")) _ _ _ eq_refl Hreach Hbtn).
Defined.

(** *** The references of the application state *)

(** X12.  In every state the page reaches, a key or encrypted data still
    referenced belongs to a call under way or has a release timer pending:
    no reference is left behind without a release to come. *)
Theorem references_are_covered (e : Elements) (evs : list Event) (w : World)
    (trace : list Effect) :
  steps (initial e) evs = Some (w, trace) ->
  currentKey (app w) <> None \/ lastEncryptedData (app w) <> None ->
  isProcessing (app w) = true \/ timers w <> [].
Proof.
  intros Hreach.
  apply (reachable_ind
           (fun w => currentKey (app w) <> None
                     \/ lastEncryptedData (app w) <> None ->
                     isProcessing (app w) = true \/ timers w <> [])
           e) with (evs := evs) (trace := trace); [| |exact Hreach].
  - cbn. intros [H|H]; congruence.
  - intros w0 ev w1 fx tr Hinv IH Hstep.
    pose proof Hinv as (Hlen & Hflag & _).
    assert (Hpending : forall t, timers w1 = timers w0 ++ [t] ->
              isProcessing (app w1) = true \/ timers w1 <> []).
    { intros t ->. right. now destruct (timers w0). }
    destruct ev as [text| |i settled random|i settled| | |ms].
    + injection Hstep as <- _. exact IH.
    + destruct (isProcessing (app w0)) eqn:Hp.
      * rewrite (call_rejected w0 Hp) in Hstep. injection Hstep as <- _.
        intros _. now left.
      * destruct (isValid (validate (inputText_value (elements w0)))) eqn:Hv.
        -- destruct (call_valid w0 Hp Hv) as (w2 & E & H1 & _).
           rewrite E in Hstep. injection Hstep as <- _. intros _. now left.
        -- destruct (call_invalid w0 Hp Hv) as (w2 & E & _ & _ & _ & _ & H5 & _).
           rewrite E in Hstep. injection Hstep as <- _. intros _.
           now apply Hpending with (t := now w0 + 100).
    + assert (exists start v, nth_error (runs w0) i = Some (AwaitGenerateKey start v))
        as (start & v & Hnth).
      { unfold step in Hstep.
        destruct (nth_error (runs w0) i) as [[start v|]|]; try discriminate; eauto. }
      destruct settled as [key|].
      * destruct (key_fulfilled w0 i start v key random Hnth) as (w2 & E & H1 & _).
        rewrite E in Hstep. injection Hstep as <- _. intros _. left.
        rewrite H1. apply Hflag. intros Hr. rewrite Hr in Hnth. now destruct i.
      * destruct (key_rejected w0 i start v random Hnth)
          as (w2 & E & _ & _ & _ & _ & H5 & _).
        rewrite E in Hstep. injection Hstep as <- _. intros _.
        now apply Hpending with (t := now w0 + 100).
    + assert (exists start v key iv,
                nth_error (runs w0) i = Some (AwaitEncrypt start v key iv))
        as (start & v & key & iv & Hnth).
      { unfold step in Hstep.
        destruct (nth_error (runs w0) i) as [[|start v key iv]|];
          try discriminate; eauto 6. }
      destruct settled as [enc|].
      * destruct (encrypt_fulfilled w0 i start v key iv enc Hnth)
          as (w2 & E & _ & _ & _ & _ & H5 & _).
        rewrite E in Hstep. injection Hstep as <- _. intros _.
        now apply Hpending with (t := now w0 + 100).
      * destruct (encrypt_rejected w0 i start v key iv Hnth)
          as (w2 & E & _ & _ & _ & _ & H5 & _).
        rewrite E in Hstep. injection Hstep as <- _. intros _.
        now apply Hpending with (t := now w0 + 100).
    + unfold step in Hstep. destruct (timers w0) as [|due rest]; [discriminate|].
      destruct (due <=? now w0); [|discriminate].
      injection Hstep as <- _. cbn. intros [H|H]; congruence.
    + injection Hstep as <- _. cbn. intros [H|H]; congruence.
    + injection Hstep as <- _. exact IH.
Qed.

Lemma references_are_covered_witness :
  let w := after (page (lit "a"))
             [CallProcessEncryption;
              KeySettled 0 (Some (Key 1)) (fun _ => x00);
              EncryptSettled 0 (Some (repeat x00 17))] in
  isProcessing (app w) = true \/ timers w <> [].
Proof.
  cbv zeta.
  assert (Hreach :
    steps (initial (page (lit "a")))
      [CallProcessEncryption; KeySettled 0 (Some (Key 1)) (fun _ => x00);
       EncryptSettled 0 (Some (repeat x00 17))]
    = Some (after (page (lit "a"))
              [CallProcessEncryption; KeySettled 0 (Some (Key 1)) (fun _ => x00);
               EncryptSettled 0 (Some (repeat x00 17))],
            produced (page (lit "a"))
              [CallProcessEncryption; KeySettled 0 (Some (Key 1)) (fun _ => x00);
               EncryptSettled 0 (Some (repeat x00 17))]))
    by (vm_compute; reflexivity).
  apply (references_are_covered (page (lit "a")) _ _ _ Hreach).
  left. vm_compute. discriminate.
Defined.

(** *** Failure of the provider, and what goes on around a call *)


Lemma fulfilled_elements (w w' : World) (i : nat) (startTime : N)
    (validation : ValidationResult) (key : CryptoKey) (iv encryptedData : bytes)
    (fx : list Effect) :
  nth_error (runs w) i = Some (AwaitEncrypt startTime validation key iv) ->
  step w (EncryptSettled i (Some encryptedData)) = Some (w', fx) ->
  elements w' = UIManager.hideProcessing
                  (UIManager.displayResult
                     (base64_encode (fromCharCode (iv ++ encryptedData)))
                     (elements w)).
Proof.
  intros Hnth Hstep. unfold step in Hstep. rewrite Hnth in Hstep.
  unfold try_from_encrypted in Hstep.
  cbn [CryptographicEngine.encryptText_resume] in Hstep.
  rewrite formatOutput_value in Hstep.
  destruct (2000 <? _) in Hstep; injection Hstep as <- _; reflexivity.
Qed.



(** X14.  The clear button does not cancel a call under way: the call
    stays suspended, and when its encryption settles the result of the
    cleared text is put in the output again and its data referenced again,
    with the text area empty. *)
Theorem clear_does_not_cancel (w : World) (i : nat) (startTime : N)
    (validation : ValidationResult) (key : CryptoKey) (iv encryptedData : bytes) :
  nth_error (runs w) i = Some (AwaitEncrypt startTime validation key iv) ->
  exists w1 w2 fx,
    step w ClickClear = Some (w1, [ClearedSensitiveData])
    /\ inputText_value (elements w1) = []
    /\ outputText_value (elements w1) = []
    /\ copyBtn_disabled (elements w1) = true
    /\ currentKey (app w1) = None
    /\ lastEncryptedData (app w1) = None
    /\ isProcessing (app w1) = isProcessing (app w)
    /\ runs w1 = runs w
    /\ step w1 (EncryptSettled i (Some encryptedData)) = Some (w2, fx)
    /\ inputText_value (elements w2) = []
    /\ outputText_value (elements w2)
       = base64_encode (fromCharCode (iv ++ encryptedData))
    /\ copyBtn_disabled (elements w2) = false
    /\ lastEncryptedData (app w2) = Some encryptedData.
Proof.
  intros Hnth.
  assert (Hnth1 : nth_error (runs (fst (clearAll w))) i
                  = Some (AwaitEncrypt startTime validation key iv)) by exact Hnth.
  destruct (encrypt_fulfilled (fst (clearAll w)) i startTime validation key iv
              encryptedData Hnth1) as (w2 & E & _ & _ & L & _ & _ & O & C & _).
  pose proof (fulfilled_elements _ _ _ _ _ _ _ _ _ Hnth1 E) as He2.
  exists (fst (clearAll w)), w2. eexists.
  split; [reflexivity|]. rewrite clearAll_elements.
  repeat split; try exact E; try assumption; try reflexivity;
    try (read_fields; reflexivity).
  rewrite He2, clearAll_elements. read_fields. reflexivity.
Qed.

Lemma clear_does_not_cancel_witness :
  let w := after (page (lit "a"))
             [CallProcessEncryption; KeySettled 0 (Some (Key 1)) (fun _ => x00)] in
  exists w1 w2 fx,
    step w ClickClear = Some (w1, [ClearedSensitiveData])
    /\ step w1 (EncryptSettled 0 (Some (repeat x00 17))) = Some (w2, fx)
    /\ inputText_value (elements w2) = []
    /\ copyBtn_disabled (elements w2) = false.
Proof.
  cbv zeta.
  assert (Hnth : nth_error
            (runs (after (page (lit "a"))
               [CallProcessEncryption;
                KeySettled 0 (Some (Key 1)) (fun _ => x00)])) 0
          = Some (AwaitEncrypt 0 (validate (lit "a")) (Key 1) (repeat x00 12)))
    by (vm_compute; reflexivity).
  destruct (clear_does_not_cancel _ _ _ _ _ _ (repeat x00 17) Hnth)
    as (w1 & w2 & fx & E1 & _ & _ & _ & _ & _ & _ & _ & E2 & H1 & _ & H2 & _).
  exists w1, w2, fx. repeat split; assumption.
Defined.

(** X15.  The advisory time budget: a call whose key generation takes
    [a] ms and whose encryption takes [b] ms delivers its result all the
    same, and warns on the console exactly when [a + b] exceeds 2000. *)
Theorem slow_run_warns (w : World) (key : CryptoKey) (random : nat -> byte)
    (encryptedData : bytes) (a b : N) :
  idle w ->
  isValid (validate (inputText_value (elements w))) = true ->
  exists w' fx,
    steps w [CallProcessEncryption; Tick a;
             KeySettled 0 (Some key) random; Tick b;
             EncryptSettled 0 (Some encryptedData)] = Some (w', fx)
    /\ (In ConsoleWarn fx <-> 2000 < a + b)
    /\ outputText_value (elements w')
       = base64_encode (fromCharCode (map random (seq 0 12) ++ encryptedData))
    /\ successMessage_hidden (elements w') = false
    /\ isProcessing (app w') = false.
Proof.
  intros (Hidle & Hruns) Hvalid.
  destruct (call_valid w Hidle Hvalid)
    as (w1 & E1 & _ & _ & _ & R1 & _ & N1 & _).
  rewrite Hruns in R1. cbn [app] in R1.
  assert (Hnth1 : nth_error (runs (set_now (now w1 + a) w1)) 0
                  = Some (AwaitGenerateKey (now w)
                            (validate (inputText_value (elements w)))))
    by (cbn [runs set_now]; now rewrite R1).
  destruct (key_fulfilled _ 0 _ _ key random Hnth1)
    as (w2 & E2 & _ & _ & _ & R2 & _ & N2 & _).
  cbn [runs set_now] in R2. rewrite R1 in R2.
  cbn [remove_at firstn skipn app] in R2. cbn [now set_now] in N2.
  assert (Hnth2 : nth_error (runs (set_now (now w2 + b) w2)) 0
                  = Some (AwaitEncrypt (now w)
                            (validate (inputText_value (elements w))) key
                            (map random (seq 0 12))))
    by (cbn [runs set_now]; now rewrite R2).
  destruct (encrypt_fulfilled _ 0 _ _ _ _ encryptedData Hnth2)
    as (w3 & E3 & P3 & _ & _ & _ & _ & O3 & _).
  pose proof (fulfilled_elements _ _ _ _ _ _ _ _ _ Hnth2 E3) as He3.
  cbn [now set_now] in E3.
  replace (now w2 + b - now w) with (a + b) in E3 by (rewrite N2, N1; lia).
  exists w3. eexists. split.
  - cbn [steps]. rewrite E1.
    change (step w1 (Tick a)) with (Some (set_now (now w1 + a) w1, @nil Effect)).
    cbv beta iota. rewrite E2.
    change (step w2 (Tick b)) with (Some (set_now (now w2 + b) w2, @nil Effect)).
    cbv beta iota. rewrite E3. reflexivity.
  - split; [|split; [exact O3|split; [|exact P3]]].
    + destruct (N.ltb_spec 2000 (a + b)) as [Hslow|Hfast];
        cbn; split; intros H; auto; try lia.
      repeat (destruct H as [H|H]; try discriminate). contradiction.
    + rewrite He3. read_fields. reflexivity.
Qed.

Lemma slow_run_warns_witness :
  exists w' fx,
    steps (initial (page (lit "a")))
      [CallProcessEncryption; Tick 1500;
       KeySettled 0 (Some (Key 1)) (fun _ => x00); Tick 600;
       EncryptSettled 0 (Some (repeat x00 17))] = Some (w', fx)
    /\ In ConsoleWarn fx.
Proof.
  destruct (slow_run_warns (initial (page (lit "a"))) (Key 1) (fun _ => x00)
              (repeat x00 17) 1500 600 (conj eq_refl eq_refl) eq_refl)
    as (w' & fx & E & Hw & _).
  exists w', fx. split; [exact E|]. apply Hw. reflexivity.
Defined.

(** X16.  The release timer an earlier call left can fire while a later
    call awaits its encryption: it clears the key reference of the call
    under way, and the call completes all the same, with the key it holds
    itself; the encrypted data is then referenced and the key is not. *)
Theorem stale_timer_during_run (w : World) (i : nat) (startTime : N)
    (validation : ValidationResult) (key : CryptoKey) (iv encryptedData : bytes)
    (due : N) (rest : list N) :
  nth_error (runs w) i = Some (AwaitEncrypt startTime validation key iv) ->
  timers w = due :: rest ->
  due <= now w ->
  exists w1 w2 fx,
    step w TimerFires = Some (w1, [ClearedSensitiveData])
    /\ currentKey (app w1) = None
    /\ step w1 (EncryptSettled i (Some encryptedData)) = Some (w2, fx)
    /\ outputText_value (elements w2)
       = base64_encode (fromCharCode (iv ++ encryptedData))
    /\ currentKey (app w2) = None
    /\ lastEncryptedData (app w2) = Some encryptedData
    /\ timers w2 = rest ++ [now w + 100].
Proof.
  intros Hnth Ht Hdue.
  assert (E1 : step w TimerFires
               = Some (set_app (MemoryManager.clearSensitiveData (app w))
                         (set_timers rest w), [ClearedSensitiveData])).
  { unfold step. rewrite Ht. apply N.leb_le in Hdue. now rewrite Hdue. }
  assert (Hnth1 : nth_error
            (runs (set_app (MemoryManager.clearSensitiveData (app w))
                     (set_timers rest w))) i
          = Some (AwaitEncrypt startTime validation key iv)) by exact Hnth.
  destruct (encrypt_fulfilled _ i _ _ _ _ encryptedData Hnth1)
    as (w2 & E2 & _ & K2 & L2 & _ & T2 & O2 & _).
  do 3 eexists.
  split; [exact E1|]. split; [reflexivity|].
  split; [exact E2|]. repeat split; assumption.
Qed.

Lemma stale_timer_during_run_witness :
  let w := after (page [])
             [CallProcessEncryption; UserInput (lit "a"); CallProcessEncryption;
              KeySettled 0 (Some (Key 1)) (fun _ => x00); Tick 100] in
  exists w1 w2 fx,
    step w TimerFires = Some (w1, [ClearedSensitiveData])
    /\ step w1 (EncryptSettled 0 (Some (repeat x00 17))) = Some (w2, fx)
    /\ currentKey (app w2) = None
    /\ lastEncryptedData (app w2) = Some (repeat x00 17).
Proof.
  cbv zeta.
  assert (Hnth : nth_error
            (runs (after (page [])
               [CallProcessEncryption; UserInput (lit "a"); CallProcessEncryption;
                KeySettled 0 (Some (Key 1)) (fun _ => x00); Tick 100])) 0
          = Some (AwaitEncrypt 0 (validate (lit "a")) (Key 1) (repeat x00 12)))
    by (vm_compute; reflexivity).
  assert (Ht : timers (after (page [])
               [CallProcessEncryption; UserInput (lit "a"); CallProcessEncryption;
                KeySettled 0 (Some (Key 1)) (fun _ => x00); Tick 100]) = [100])
    by (vm_compute; reflexivity).
  assert (Hdue : 100 <= now (after (page [])
               [CallProcessEncryption; UserInput (lit "a"); CallProcessEncryption;
                KeySettled 0 (Some (Key 1)) (fun _ => x00); Tick 100]))
    by (vm_compute; discriminate).
  destruct (stale_timer_during_run _ _ _ _ _ _ (repeat x00 17) _ _ Hnth Ht Hdue)
    as (w1 & w2 & fx & E1 & _ & E2 & _ & K & L & _).
  exists w1, w2, fx. repeat split; assumption.
Defined.

End PageInvariants.

(** ** The bytes encrypted and the text produced *)

Section EncodingMore.

Import InputValidator.

Lemma list_sum_cons (x : nat) (l : list nat) : list_sum (x :: l) = (x + list_sum l)%nat.
Proof. reflexivity. Qed.

Lemma utf8_of_code_point_length (cp : N) :
  List.length (utf8_of_code_point cp) = utf8_weight cp.
Proof.
  unfold utf8_of_code_point, utf8_weight.
  destruct (cp <=? 0x7F); [reflexivity|].
  destruct (cp <=? 0x7FF); [reflexivity|].
  destruct (cp <=? 0xFFFF); reflexivity.
Qed.

Lemma utf8_weight_bounds (c : N) : (1 <= utf8_weight c <= 4)%nat.
Proof.
  unfold utf8_weight.
  destruct (c <=? 0x7F), (c <=? 0x7FF), (c <=? 0xFFFF); lia.
Qed.

Lemma surrogate_weight (c : N) :
  is_high_surrogate c = true \/ is_low_surrogate c = true -> utf8_weight c = 3%nat.
Proof.
  unfold is_high_surrogate, is_low_surrogate, utf8_weight.
  rewrite !andb_true_iff, !N.leb_le. intros H.
  destruct (N.leb_spec c 0x7F); [lia|].
  destruct (N.leb_spec c 0x7FF); [lia|].
  destruct (N.leb_spec c 0xFFFF); [reflexivity|lia].
Qed.

(** The bytes of a string are at most the weights of its code units. *)
Lemma utf8_length_bound (s : jsstring) :
  (List.length (flat_map utf8_of_code_point (code_points s))
   <= list_sum (map utf8_weight s))%nat.
Proof.
  assert (H : forall n s, (List.length s <= n)%nat ->
            (List.length (flat_map utf8_of_code_point (code_points s))
             <= list_sum (map utf8_weight s))%nat).
  { clear s. induction n as [|n IH]; intros s Hn.
    - destruct s; [cbn; lia|cbn in Hn; lia].
    - destruct s as [|c t]; [cbn; lia|].
      cbn [List.length] in Hn.
      cbn [code_points map]. rewrite ?list_sum_cons.
      destruct (is_high_surrogate c) eqn:Hh.
      + pose proof (surrogate_weight c (or_introl Hh)) as Wc.
        destruct t as [|d t'].
        * cbn. lia.
        * destruct (is_low_surrogate d) eqn:Hl.
          -- pose proof (surrogate_weight d (or_intror Hl)) as Wd.
             cbn [flat_map map]. rewrite ?list_sum_cons, length_app.
             rewrite utf8_of_code_point_length.
             pose proof (utf8_weight_bounds
                           (0x10000 + N.shiftl (c - 0xD800) 10 + (d - 0xDC00))).
             cbn [List.length] in Hn.
             pose proof (IH t' ltac:(lia)). lia.
          -- cbn [flat_map]. rewrite length_app.
             pose proof (IH (d :: t') ltac:(lia)) as IHt.
             cbn [map] in *. rewrite ?list_sum_cons in *.
             change (List.length (utf8_of_code_point 0xFFFD)) with 3%nat. lia.
      + destruct (is_low_surrogate c) eqn:Hl.
        * pose proof (surrogate_weight c (or_intror Hl)) as Wc.
          cbn [flat_map]. rewrite length_app.
          change (List.length (utf8_of_code_point 0xFFFD)) with 3%nat.
          pose proof (IH t ltac:(lia)). lia.
        * cbn [flat_map]. rewrite length_app, utf8_of_code_point_length.
          pose proof (IH t ltac:(lia)). lia. }
  apply (H (List.length s)). apply Nat.le_refl.
Qed.

Lemma escape_char_weight (x : N) :
  (list_sum (map utf8_weight (escape_char x)) <= 6)%nat.
Proof.
  destruct (escape_char_cases x)
    as [(-> & E)|[(-> & E)|[(-> & E)|[(-> & E)|[(-> & E)|(_ & _ & _ & _ & _ & E)]]]]];
    rewrite E; try (cbn; lia).
  cbn [map]. rewrite ?list_sum_cons. cbn [list_sum fold_right]. pose proof (utf8_weight_bounds x). lia.
Qed.

Lemma flat_map_escape_weight (s : jsstring) :
  (list_sum (map utf8_weight (flat_map escape_char s)) <= 6 * List.length s)%nat.
Proof.
  induction s as [|x s IH]; [cbn; lia|].
  cbn [flat_map]. rewrite map_app, list_sum_app. cbn [List.length].
  pose proof (escape_char_weight x). lia.
Qed.

(** X17.  The plaintext handed to the provider: the UTF-8 bytes of the
    sanitized text are at most six times the characters of the input, so
    at most 60000 bytes for a valid input. *)
Theorem plaintext_bytes_bound (input : jsstring) :
  (List.length (TextEncoder_encode (sanitize input)) <= 6 * List.length input)%nat
  /\ (isValid (validate input) = true ->
      N.of_nat (List.length (TextEncoder_encode (sanitized (validate input))))
      <= 60000).
Proof.
  assert (H : (List.length (TextEncoder_encode (sanitize input))
               <= 6 * List.length input)%nat).
  { unfold TextEncoder_encode. rewrite length_map, sanitize_one_pass.
    pose proof (utf8_length_bound
                  (flat_map escape_char (strip_control (trim input)))).
    pose proof (flat_map_escape_weight (strip_control (trim input))).
    pose proof (strip_control_length (trim input)).
    pose proof (trim_length input). lia. }
  split; [exact H|]. intros Hvalid. rewrite validate_sanitized.
  rewrite validate_isValid, !andb_true_iff, !negb_true_iff in Hvalid.
  destruct Hvalid as ((_ & Hlen) & _). apply N.ltb_ge in Hlen.
  unfold length in Hlen. lia.
Qed.

Lemma base64_char_in (n : N) :
  In (base64_char n) base64_alphabet \/ base64_char n = base64_pad.
Proof.
  unfold base64_char.
  destruct (nth_in_or_default (N.to_nat n) base64_alphabet base64_pad);
    [now left|now right].
Qed.

Lemma base64_encode_shape (s : list N) :
  List.length (base64_encode s) = (4 * ((List.length s + 2) / 3))%nat
  /\ (forall c, In c (base64_encode s) ->
        In c base64_alphabet \/ c = base64_pad).
Proof.
  induction s as [|a|a b|a b c t (IHl & IHc)] using list_ind3.
  - split; [reflexivity|contradiction].
  - split; [reflexivity|]. cbn [base64_encode In].
    intros x [<-|[<-|[<-|[<-|[]]]]]; try apply base64_char_in; now right.
  - split; [reflexivity|]. cbn [base64_encode In].
    intros x [<-|[<-|[<-|[<-|[]]]]]; try apply base64_char_in; now right.
  - split.
    + cbn [base64_encode List.length]. rewrite IHl.
      replace (S (S (S (List.length t))) + 2)%nat
        with (1 * 3 + (List.length t + 2))%nat by lia.
      rewrite Nat.div_add_l by discriminate. lia.
    + cbn [base64_encode In].
      intros x [<-|[<-|[<-|[<-|H]]]]; try apply base64_char_in. now apply IHc.
Qed.

(** X18.  [formatOutput] never throws; the text it returns has four
    characters for every three bytes of IV and encrypted data, the last
    group padded, all of them of the base64 alphabet or the padding
    sign. *)
Theorem formatOutput_shape (iv encryptedData : bytes) :
  exists text,
    OutputFormatter.formatOutput iv encryptedData = Normal text
    /\ List.length text
       = (4 * ((List.length iv + List.length encryptedData + 2) / 3))%nat
    /\ (forall c, In c text -> In c base64_alphabet \/ c = base64_pad).
Proof.
  eexists. split; [apply formatOutput_value|].
  destruct (base64_encode_shape (fromCharCode (iv ++ encryptedData))) as (Hl & Hc).
  split; [|exact Hc].
  rewrite Hl. unfold fromCharCode. now rewrite length_map, length_app.
Qed.

End EncodingMore.

(** ** ClipboardManager *)

Section Clipboard.

Import ClipboardManager.

(** X19.  Copying with an empty output shows "No encrypted text to copy"
    in the error display and does nothing else: nothing is written to the
    clipboard, no call is left suspended and no timer is registered. *)
Theorem copy_nothing (c : Clip) :
  outputText_value (page_elements c) = [] ->
  exists c',
    clip_step c ClickCopy = Some c'
    /\ errorText_textContent (page_elements c') = lit "No encrypted text to copy"
    /\ errorMessage_hidden (page_elements c') = false
    /\ successMessage_hidden (page_elements c') = true
    /\ copyStatus_textContent (page_elements c')
       = copyStatus_textContent (page_elements c)
    /\ clipboard c' = clipboard c
    /\ writes c' = writes c
    /\ copy_timers c' = copy_timers c.
Proof.
  intros Hempty. eexists. split; [reflexivity|].
  unfold copyToClipboard. rewrite Hempty. cbn. repeat split; reflexivity.
Qed.

Lemma copy_nothing_witness :
  exists c',
    clip_step (fresh (page [])) ClickCopy = Some c'
    /\ errorText_textContent (page_elements c') = lit "No encrypted text to copy".
Proof.
  destruct (copy_nothing (fresh (page [])) eq_refl) as (c' & E & H & _).
  exists c'. split; assumption.
Defined.



(** X21.  A copy that the clipboard refuses shows "Copy failed" and
    leaves the clipboard and the timers as they were; the error display is
    not used. *)
Theorem copy_refused (c : Clip) (i : nat) (text : jsstring) :
  nth_error (writes c) i = Some text ->
  exists c',
    clip_step c (WriteSettled i false) = Some c'
    /\ copyStatus_textContent (page_elements c')
       = UIManager.ballot_x :: lit " Copy failed"
    /\ copyStatus_className c' = lit "text-sm text-red-600"
    /\ clipboard c' = clipboard c
    /\ copy_timers c' = copy_timers c
    /\ errorText_textContent (page_elements c')
       = errorText_textContent (page_elements c)
    /\ errorMessage_hidden (page_elements c')
       = errorMessage_hidden (page_elements c)
    /\ S (List.length (writes c')) = List.length (writes c).
Proof.
  intros Hnth. unfold clip_step. rewrite Hnth.
  eexists. split; [reflexivity|]. cbn.
  repeat split; try reflexivity. apply (remove_at_length _ _ _ Hnth).
Qed.

Lemma copy_refused_witness :
  exists c',
    clip_step (copyToClipboard (fresh (set_outputText_value (lit "QUJD") (page []))))
      (WriteSettled 0 false) = Some c'
    /\ clipboard c' = None.
Proof.
  destruct (copy_refused
              (copyToClipboard (fresh (set_outputText_value (lit "QUJD") (page []))))
              0 (lit "QUJD") eq_refl) as (c' & E & _ & _ & H & _).
  exists c'. split; assumption.
Defined.

End Clipboard.
